(** * Intervals: a shallow embedding of [interval.py] and [intervalset.py]

    The development follows the two source modules:
    - [Smallest] / [Largest], the two infinity sentinels, and the rich
      comparison operators Python evaluates on bounds;
    - [Interval], its constructor and its predicates ([comes_before],
      [overlaps], [adjacent_to], [join], [__contains__]);
    - [BaseIntervalSet] / [IntervalSet], whose instances are mutable objects:
      they live in a store of objects and the methods are written in a
      state-and-exception monad over that store.

    The source is Python 3 (annotations, [super()], [abc.ABC]); the
    operators are resolved the way Python 3 resolves them.

    An [Interval] is the record of the four attributes [__init__] assigns.
    [init] is the body of [__init__]; [new_Interval] is the call
    [Interval(...)], which first passes the check [abc] makes when a class
    is instantiated.  [Interval] leaves [__ne__], [__le__] and [__ge__] of
    its abstract base undefined, so the call raises [TypeError] before the
    body runs.  The methods are stated on interval objects as they are
    given (instances of a concrete subclass, the only ones there can be). *)

From stdpp Require Import base list strings.
From Stdlib Require Import ZArith Lia.

Local Open Scope string_scope.
Local Open Scope list_scope.

(** ** Exceptions and results *)

(** The exception classes the two modules raise.  [RecursionError] is what
    Python raises when a method keeps calling itself. *)
Inductive exn : Type :=
| TypeError (msg : string)
| ValueError (msg : string)
| ArithmeticError (msg : string)
| KeyError
| RecursionError.

Inductive result (A : Type) : Type :=
| Ok (a : A)
| Raise (e : exn).
Arguments Ok {A} a.
Arguments Raise {A} e.

Definition rbind {A B} (r : result A) (k : A -> result B) : result B :=
  match r with
  | Ok a => k a
  | Raise e => Raise e
  end.

Notation "'letr' x := c 'in' k" := (rbind c (fun x => k))
  (at level 10, x name, c at level 100, k at level 200).

(** The monad of the stateful methods: a computation takes the state and
    returns a value or an exception, and the state it leaves. *)
Definition state_exn (S A : Type) : Type := S -> result A * S.

Definition ret {S A} (a : A) : state_exn S A := fun s => (Ok a, s).
Definition raise {S A} (e : exn) : state_exn S A := fun s => (Raise e, s).
Definition bind {S A B} (m : state_exn S A) (k : A -> state_exn S B)
  : state_exn S B := fun s =>
  match m s with
  | (Ok a, s') => k a s'
  | (Raise e, s') => (Raise e, s')
  end.
Definition lift {S A} (r : result A) : state_exn S A := fun s => (r, s).

Notation "'letm' x := c 'in' k" := (bind c (fun x => k))
  (at level 10, x name, c at level 100, k at level 200).
Notation "c ;; k" := (bind c (fun _ => k))
  (at level 100, k at level 200, right associativity).

(** ** The ordered domain

    [SupportsRichComparison] is the interface of the values an interval may
    be bounded by.  [rich v] is the outcome of
    [isinstance(v, SupportsRichComparison)], the guard of the constructor;
    [zero] is the literal [0] that [Interval.none] passes as both bounds.
    The consumer's order is a strict order with a decidable equality. *)
Class SupportsRichComparison : Type := {
  carrier : Type;
  carrier_eq : carrier -> carrier -> bool;
  carrier_lt : carrier -> carrier -> bool;
  rich : carrier -> bool;
  zero : carrier;
  carrier_eq_spec : forall a b, carrier_eq a b = true <-> a = b;
  carrier_lt_irrefl : forall a, carrier_lt a a = false;
  carrier_lt_asym : forall a b, carrier_lt a b = true -> carrier_lt b a = false;
  carrier_lt_total : forall a b, a <> b -> carrier_lt a b = true \/ carrier_lt b a = true
}.

Section Intervals.
Context {D : SupportsRichComparison}.

(** A bound is one of the two sentinels or a value of the domain. *)
Inductive bound : Type :=
| Smallest
| Largest
| Value (v : carrier).

(** [Inf = Largest()]; [-Inf] is [Largest.__neg__], which returns
    [Smallest()]. *)
Definition Inf : bound := Largest.
Definition minus_Inf : bound := Smallest.

Definition is_Smallest (b : bound) : bool :=
  match b with Smallest => true | _ => false end.
Definition is_Largest (b : bound) : bool :=
  match b with Largest => true | _ => false end.

(** [x == y].  [Smallest.__eq__] and [Largest.__eq__] test the class of the
    other operand; a domain value compared with a sentinel defers to the
    sentinel's reflected method. *)
Definition py_eq (x y : bound) : bool :=
  match x, y with
  | Smallest, _ => is_Smallest y
  | Largest, _ => is_Largest y
  | Value a, Value b => carrier_eq a b
  | Value _, Smallest => false
  | Value _, Largest => false
  end.

(** [x != y]: [Smallest.__ne__], [Largest.__ne__]. *)
Definition py_ne (x y : bound) : bool :=
  match x, y with
  | Smallest, _ => negb (is_Smallest y)
  | Largest, _ => negb (is_Largest y)
  | Value a, Value b => negb (carrier_eq a b)
  | Value _, Smallest => true
  | Value _, Largest => true
  end.

(** [x < y].  [Smallest.__lt__] returns [True] and [Largest.__lt__] returns
    [False] whatever the other operand is; [v < Smallest()] is answered by
    the reflected [Smallest.__gt__] ([False]) and [v < Largest()] by
    [Largest.__gt__] ([True]). *)
Definition py_lt (x y : bound) : bool :=
  match x, y with
  | Smallest, _ => true
  | Largest, _ => false
  | Value a, Value b => carrier_lt a b
  | Value _, Smallest => false
  | Value _, Largest => true
  end.

(** [x > y].  [Smallest.__gt__] returns [False] and [Largest.__gt__] returns
    [True]; [v > Smallest()] is the reflected [Smallest.__lt__] ([True]) and
    [v > Largest()] the reflected [Largest.__lt__] ([False]). *)
Definition py_gt (x y : bound) : bool :=
  match x, y with
  | Smallest, _ => false
  | Largest, _ => true
  | Value a, Value b => carrier_lt b a
  | Value _, Smallest => true
  | Value _, Largest => false
  end.

(** [isinstance(b, SupportsRichComparison)]: both sentinel classes derive
    from the interface. *)
Definition isinstance_comparable (b : bound) : bool :=
  match b with
  | Smallest | Largest => true
  | Value v => rich v
  end.

(** ** Interval *)

Record Interval : Type := mkInterval {
  lower_bound : bound;
  lower_closed : bool;
  upper_bound : bound;
  upper_closed : bool
}.

(** The body of [Interval.__init__(lower_bound, upper_bound, closed,
    lower_closed, upper_closed)], every argument given. *)
Definition init (lower upper : bound) (closed lc uc : bool) : result Interval :=
  if negb (isinstance_comparable lower) then
    Raise (TypeError "lower_bound is not comparable.")
  else if negb (isinstance_comparable upper) then
    Raise (TypeError "upper_bound is not comparable.")
  else if py_lt upper lower then
    Raise (ValueError "Upper bound cannot be greater than lower bound.")
  else
    let lc := closed || lc in
    let uc := closed || uc in
    if (py_eq lower minus_Inf && lc) || (py_eq upper Inf && uc) then
      Raise (ValueError "Unbound ends cannot be included in an interval.")
    else
      Ok (mkInterval lower lc upper uc).

(** The defaults of the constructor's signature:
    [lower_bound=-Inf, upper_bound=Inf, closed=True, lower_closed=True,
    upper_closed=True]. *)
Definition default_lower : bound := minus_Inf.
Definition default_upper : bound := Inf.
Definition default_closed : bool := true.
Definition default_lower_closed : bool := true.
Definition default_upper_closed : bool := true.

(** The rich comparison methods.  [SupportsRichComparison] declares the
    six of them abstract; [Interval] defines [__eq__], [__lt__] and
    [__gt__] only. *)
Inductive comparison_method : Type :=
| meth_eq | meth_ne | meth_lt | meth_le | meth_gt | meth_ge.

Definition declared_abstract : list comparison_method :=
  [meth_eq; meth_ne; meth_lt; meth_le; meth_gt; meth_ge].

Definition Interval_defines (m : comparison_method) : bool :=
  match m with
  | meth_eq | meth_lt | meth_gt => true
  | meth_ne | meth_le | meth_ge => false
  end.

(** [Interval.__abstractmethods__]: the abstract methods of the base that
    the class does not define. *)
Definition Interval_abstractmethods : list comparison_method :=
  List.filter (fun m => negb (Interval_defines m)) declared_abstract.

(** The exception of instantiating a class that has abstract methods (the
    wording of the message is that of CPython 3.11). *)
Definition abstract_class_error : exn :=
  TypeError
    "Can't instantiate abstract class Interval with abstract methods __ge__, __le__, __ne__".

(** The call [Interval(lower_bound, upper_bound, closed, lower_closed,
    upper_closed)]: the body of [__init__] runs only when the class has no
    abstract method left. *)
Definition new_Interval (lower upper : bound) (closed lc uc : bool)
  : result Interval :=
  match Interval_abstractmethods with
  | [] => init lower upper closed lc uc
  | _ :: _ => Raise abstract_class_error
  end.

(** [Interval.__nonzero__]. *)
Definition nonzero (i : Interval) : bool :=
  py_ne (lower_bound i) (upper_bound i)
  || (upper_closed i && lower_closed i).

(** The truth value of an interval in a condition ([if r:]).  Python 3
    looks for [__bool__], then [__len__]; [Interval] defines neither (its
    [__nonzero__] is not consulted), so every interval is true. *)
Definition truth (i : Interval) : bool := true.

(** [Interval.__eq__] on two intervals. *)
Definition interval_eq (self other : Interval) : bool :=
  py_eq (upper_bound self) (upper_bound other)
  && py_eq (lower_bound self) (lower_bound other)
  && eqb (upper_closed self) (upper_closed other)
  && eqb (lower_closed self) (lower_closed other).

(** [Interval.none], [all], [between], [equal_to] and the four unbounded
    constructors. *)
Definition none : result Interval :=
  new_Interval (Value zero) (Value zero) false default_lower_closed default_upper_closed.

Definition all : result Interval :=
  new_Interval default_lower default_upper default_closed
       default_lower_closed default_upper_closed.

Definition between (a b : bound) (closed : bool) : result Interval :=
  new_Interval a b closed default_lower_closed default_upper_closed.

Definition equal_to (a : bound) : result Interval :=
  new_Interval a a default_closed default_lower_closed default_upper_closed.

Definition less_than (a : bound) : result Interval :=
  new_Interval default_lower a default_closed default_lower_closed false.

Definition less_than_or_equal_to (a : bound) : result Interval :=
  new_Interval default_lower a default_closed default_lower_closed true.

Definition greater_than (a : bound) : result Interval :=
  new_Interval a default_upper default_closed false default_upper_closed.

Definition greater_than_or_equal_to (a : bound) : result Interval :=
  new_Interval a default_upper default_closed true default_upper_closed.

(** [Interval.comes_before]; [__lt__] is [comes_before] and [__gt__] is
    [comes_before] with the operands exchanged. *)
Definition comes_before (self other : Interval) : bool :=
  if interval_eq self other then false
  else if py_lt (lower_bound self) (lower_bound other) then true
  else if py_gt (lower_bound self) (lower_bound other) then false
  else if eqb (lower_closed self) (lower_closed other) then
    if py_lt (upper_bound self) (upper_bound other) then true
    else if py_gt (upper_bound self) (upper_bound other)
            || eqb (upper_closed self) (upper_closed other)
            || upper_closed self then false
    else true
  else if lower_closed self then true
  else false.

(** The depth of calls Python allows before it raises [RecursionError]. *)
Definition recursion_limit : nat := 1000.

(** [Interval.overlaps].  The method calls itself with the operands
    exchanged; [depth] counts the calls that are still allowed. *)
Fixpoint overlaps_at (depth : nat) (self other : Interval) : result bool :=
  match depth with
  | O => Raise RecursionError
  | S d =>
    if interval_eq self other then Ok true
    else if comes_before other self then overlaps_at d other self
    else if py_lt (lower_bound other) (upper_bound self) then Ok true
    else if py_eq (lower_bound other) (upper_bound self) then
      Ok (lower_closed other && upper_closed self)
    else Ok false
  end.

Definition overlaps : Interval -> Interval -> result bool :=
  overlaps_at recursion_limit.

(** [Interval.adjacent_to], with the same account of its self-calls. *)
Fixpoint adjacent_to_at (depth : nat) (self other : Interval) : result bool :=
  match depth with
  | O => Raise RecursionError
  | S d =>
    if comes_before self other then
      if py_eq (upper_bound self) (lower_bound other) then
        Ok (negb (eqb (upper_closed self) (lower_closed other)))
      else Ok false
    else if interval_eq self other then Ok false
    else adjacent_to_at d other self
  end.

Definition adjacent_to : Interval -> Interval -> result bool :=
  adjacent_to_at recursion_limit.

(** [a or b] on two calls that may raise: [b] runs only when [a] is false. *)
Definition or_else (a : result bool) (b : result bool) : result bool :=
  letr x := a in if x then Ok true else b.

(** [Interval.join].  The new interval is built by
    [Interval(lbound, ubound, upper_closed=uinc, lower_closed=linc)], so
    [closed] takes its default. *)
Definition join (self other : Interval) : result Interval :=
  letr c := or_else (overlaps self other) (adjacent_to self other) in
  if c then
    let '(lbound, linc) :=
      if py_lt (lower_bound self) (lower_bound other) then
        (lower_bound self, lower_closed self)
      else if py_eq (lower_bound self) (lower_bound other) then
        (lower_bound self, lower_closed self || lower_closed other)
      else (lower_bound other, lower_closed other) in
    let '(ubound, uinc) :=
      if py_gt (upper_bound self) (upper_bound other) then
        (upper_bound self, upper_closed self)
      else if py_eq (upper_bound self) (upper_bound other) then
        (upper_bound self, upper_closed self || upper_closed other)
      else (upper_bound other, upper_closed other) in
    new_Interval lbound ubound default_closed linc uinc
  else Raise (ArithmeticError "The Intervals are disjoint.").

(** What a set is given: an [Interval] or any other object, which is taken
    as a discrete value. *)
Inductive item : Type :=
| AnInterval (i : Interval)
| AValue (v : bound).

(** [Interval.__contains__] on an interval: [bool <= bool] is implication. *)
Definition contains_interval (self obj : Interval) : bool :=
  let insideLower :=
    if py_lt (lower_bound obj) (lower_bound self) then false
    else if py_eq (lower_bound obj) (lower_bound self) then
      implb (lower_closed obj) (lower_closed self)
    else true in
  let insideUpper :=
    if py_gt (upper_bound obj) (upper_bound self) then false
    else if py_eq (upper_bound obj) (upper_bound self) then
      implb (upper_closed obj) (upper_closed self)
    else true in
  insideLower && insideUpper.

(** [Interval.__contains__]: another object is wrapped by [equal_to]. *)
Definition contains (self : Interval) (obj : item) : result bool :=
  match obj with
  | AnInterval x => Ok (contains_interval self x)
  | AValue v => letr x := equal_to v in Ok (contains_interval self x)
  end.

(** ** IntervalSet

    An [IntervalSet] is a mutable object whose attribute [intervals] holds
    a list of intervals.  The store maps an object (its address) to the
    current value of that attribute; the methods run in a monad that
    threads the store and stops at the first exception, leaving the store
    as the exception found it. *)

Abbreviation loc := nat.
Abbreviation store := (list (list Interval)).
Definition M (A : Type) : Type := state_exn store A.

(** A new object, [self.intervals] (a read) and [self.intervals = v]. *)
Definition alloc (v : list Interval) : M loc := fun s => (Ok (List.length s), s ++ [v]).
Definition get_intervals (self : loc) : M (list Interval) := fun s =>
  (Ok (default [] (s !! self)), s).
Definition set_intervals (self : loc) (v : list Interval) : M unit := fun s =>
  (Ok tt, <[self := v]> s).

(** [for x in xs: body(x)]. *)
Fixpoint for_each {X} (xs : list X) (body : X -> M unit) : M unit :=
  match xs with
  | [] => ret tt
  | x :: rest => body x ;; for_each rest body
  end.

(** [list.sort()] compares with [<], which on intervals is [comes_before];
    the model is the stable insertion sort.  Wherever [comes_before] is a
    strict total order on the members, every stable sort returns this
    list. *)
Fixpoint insert_sorted (x : Interval) (l : list Interval) : list Interval :=
  match l with
  | [] => [x]
  | y :: l' => if comes_before x y then x :: y :: l' else y :: insert_sorted x l'
  end.

Definition sort (l : list Interval) : list Interval :=
  foldl (fun acc x => insert_sorted x acc) [] l.

(** The loop of [BaseIntervalSet._add]: [r] absorbs every member it
    overlaps or touches, the others go to [newIntervals]. *)
Fixpoint add_loop (ivs : list Interval) (r : Interval) (newIntervals : list Interval)
  : result (Interval * list Interval) :=
  match ivs with
  | [] => Ok (r, newIntervals)
  | i :: rest =>
    letr c := or_else (overlaps i r) (adjacent_to i r) in
    if c then letr r' := join r i in add_loop rest r' newIntervals
    else add_loop rest r (newIntervals ++ [i])
  end.

(** [BaseIntervalSet._add]. *)
Definition _add (self : loc) (obj : item) : M unit :=
  letm r := lift (match obj with
                  | AnInterval i => Ok i
                  | AValue v => equal_to v
                  end) in
  if truth r then
    letm ivs := get_intervals self in
    letm p := lift (add_loop ivs r []) in
    let '(r', newIntervals) := p in
    set_intervals self (sort (newIntervals ++ [r']))
  else ret tt.

(** [IntervalSet.add]. *)
Definition add (self : loc) (obj : item) : M unit := _add self obj.

(** [IntervalSet(items)]: [BaseIntervalSet.__init__] on a new object. *)
Definition IntervalSet (items : list item) : M loc :=
  letm self := alloc [] in
  for_each items (_add self) ;;
  ret self.

(** [IntervalSet(s)] for a set [s]: iterating a set yields its intervals. *)
Definition IntervalSet_of (s : loc) : M loc :=
  letm ivs := get_intervals s in
  IntervalSet (map AnInterval ivs).

(** [IntervalSet.empty]. *)
Definition empty : M loc := IntervalSet [].

(** [BaseIntervalSet.__contains__]: the loop stops at the first member
    that contains [obj]. *)
Fixpoint contains_loop (ivs : list Interval) (obj : item) : result bool :=
  match ivs with
  | [] => Ok false
  | r :: rest =>
    letr c := contains r obj in
    if c then Ok true else contains_loop rest obj
  end.

Definition __contains__ (self : loc) (obj : item) : M bool :=
  letm ivs := get_intervals self in
  lift (contains_loop ivs obj).

(** [BaseIntervalSet.__le__] and [issubset] on two sets. *)
Fixpoint le_loop (ivs : list Interval) (other : loc) : M bool :=
  match ivs with
  | [] => ret true
  | i :: rest =>
    letm c := __contains__ other (AnInterval i) in
    if c then le_loop rest other else ret false
  end.

Definition __le__ (self other : loc) : M bool :=
  letm ivs := get_intervals self in
  le_loop ivs other.

Definition issubset (self other : loc) : M bool := __le__ self other.

(** [BaseIntervalSet.__eq__] on two sets:
    [self.issubset(other) and other.issubset(self)]. *)
Definition __eq__ (self other : loc) : M bool :=
  letm c := issubset self other in
  if c then issubset other self else ret false.

(** [x != None] on a bound: no bound is [None]. *)
Definition ne_None (b : bound) : bool := true.

(** [BaseIntervalSet.__or__]. *)
Definition __or__ (self other : loc) : M loc :=
  letm union := IntervalSet_of self in
  letm rs := get_intervals other in
  for_each rs (fun r => add union (AnInterval r)) ;;
  IntervalSet_of union.

(** The body of the inner loop of [BaseIntervalSet.__sub__]. *)
Definition sub_body (temp : loc) (j i : Interval) : M unit :=
  letm c := lift (overlaps i j) in
  if c then
    if contains_interval j i then ret tt
    else if contains_interval i j then
      (if ne_None (lower_bound j) then
         letm x := lift (new_Interval (lower_bound i) (lower_bound j) default_closed
                              (lower_closed i) (negb (lower_closed j))) in
         add temp (AnInterval x)
       else ret tt) ;;
      (if ne_None (upper_bound j) then
         letm x := lift (new_Interval (upper_bound j) (upper_bound i) default_closed
                              (negb (upper_closed j)) (upper_closed i)) in
         add temp (AnInterval x)
       else ret tt)
    else if comes_before j i then
      letm x := lift (new_Interval (upper_bound j) (upper_bound i) default_closed
                           (negb (upper_closed j)) (upper_closed i)) in
      add temp (AnInterval x)
    else
      letm x := lift (new_Interval (lower_bound i) (lower_bound j) default_closed
                           (lower_closed i) (negb (lower_closed j))) in
      add temp (AnInterval x)
  else add temp (AnInterval i).

(** The outer loop of [__sub__]: [result] is rebound to [temp] each turn. *)
Fixpoint sub_loop (js : list Interval) (result : loc) : M loc :=
  match js with
  | [] => ret result
  | j :: rest =>
    letm temp := IntervalSet [] in
    letm ivs := get_intervals result in
    for_each ivs (sub_body temp j) ;;
    sub_loop rest temp
  end.

(** [BaseIntervalSet.__sub__]. *)
Definition __sub__ (self other : loc) : M loc :=
  letm result := IntervalSet_of self in
  letm js := get_intervals other in
  letm result := sub_loop js result in
  IntervalSet_of result.

(** The body of the loops of [BaseIntervalSet.__and__]. *)
Definition and_body (result : loc) (j i : Interval) : M unit :=
  letm c := lift (overlaps i j) in
  if c then
    if contains_interval j i then add result (AnInterval i)
    else if contains_interval i j then add result (AnInterval j)
    else if comes_before j i then
      letm x := lift (new_Interval (lower_bound i) (upper_bound j) default_closed
                           (lower_closed i) (upper_closed j)) in
      add result (AnInterval x)
    else
      letm x := lift (new_Interval (lower_bound j) (upper_bound i) default_closed
                           (lower_closed j) (upper_closed i)) in
      add result (AnInterval x)
  else ret tt.

(** [BaseIntervalSet.__and__]. *)
Definition __and__ (self other : loc) : M loc :=
  letm result := IntervalSet [] in
  letm js := get_intervals other in
  letm ivs := get_intervals self in
  for_each js (fun j => for_each ivs (and_body result j)) ;;
  IntervalSet_of result.

(** [BaseIntervalSet.__xor__]: [(self | other) - (self & other)]. *)
Definition __xor__ (self other : loc) : M loc :=
  letm u := __or__ self other in
  letm n := __and__ self other in
  __sub__ u n.

(** [IntervalSet.discard]: [self.intervals] takes the list of
    [self - IntervalSet([obj])]. *)
Definition discard (self : loc) (obj : item) : M unit :=
  letm o := IntervalSet [obj] in
  letm diff := __sub__ self o in
  letm ivs := get_intervals diff in
  set_intervals self ivs.

(** [IntervalSet.remove]. *)
Definition remove (self : loc) (obj : item) : M unit :=
  letm c := __contains__ self obj in
  if c then discard self obj else raise KeyError.

(** ** The other methods of the two modules *)

(** [Interval.__and__].  [min] of two truth values is their conjunction.
    The branch for equal operands starts from [Interval()], the
    constructor with every default, and copies the four attributes of
    [self] onto it; the last branch is [other & self]. *)
Fixpoint interval_and_at (depth : nat) (self other : Interval) : result Interval :=
  match depth with
  | O => Raise RecursionError
  | S d =>
    if interval_eq self other then
      letr result := new_Interval default_lower default_upper default_closed
                          default_lower_closed default_upper_closed in
      Ok (mkInterval (lower_bound self) (lower_closed self)
                     (upper_bound self) (upper_closed self))
    else if comes_before self other then
      letr c := overlaps self other in
      if c then
        let '(lower, lc) :=
          if py_eq (lower_bound self) (lower_bound other) then
            (lower_bound self, lower_closed self && lower_closed other)
          else if py_gt (lower_bound self) (lower_bound other) then
            (lower_bound self, lower_closed self)
          else (lower_bound other, lower_closed other) in
        let '(upper, uc) :=
          if py_eq (upper_bound self) (upper_bound other) then
            (upper_bound self, upper_closed self && upper_closed other)
          else if py_lt (upper_bound self) (upper_bound other) then
            (upper_bound self, upper_closed self)
          else (upper_bound other, upper_closed other) in
        new_Interval lower upper default_closed lc uc
      else none
    else interval_and_at d other self
  end.

Definition interval_and : Interval -> Interval -> result Interval :=
  interval_and_at recursion_limit.

(** [BaseIntervalSet.__len__]. *)
Definition __len__ (self : loc) : M nat :=
  letm ivs := get_intervals self in
  ret (length ivs).

(** [BaseIntervalSet.__ge__] and [issuperset] on two sets. *)
Fixpoint ge_loop (ivs : list Interval) (self : loc) : M bool :=
  match ivs with
  | [] => ret true
  | i :: rest =>
    letm c := __contains__ self (AnInterval i) in
    if c then ge_loop rest self else ret false
  end.

Definition __ge__ (self other : loc) : M bool :=
  letm ivs := get_intervals other in
  ge_loop ivs self.

Definition issuperset (self other : loc) : M bool := __ge__ self other.

(** [BaseIntervalSet.__ne__], [__lt__] and [__gt__] on two sets. *)
Definition __ne__ (self other : loc) : M bool :=
  letm c := __eq__ self other in
  ret (negb c).

Definition __lt__ (self other : loc) : M bool :=
  letm c := __le__ self other in
  if c then letm e := __eq__ self other in ret (negb e) else ret false.

Definition __gt__ (self other : loc) : M bool :=
  letm c := __ge__ self other in
  if c then letm e := __eq__ self other in ret (negb e) else ret false.

(** [BaseIntervalSet.__add__]. *)
Definition __add__ (self other : loc) : M loc := __or__ self other.

(** The class methods that build a set from one or two intervals; the
    intervals are built before the set is. *)
Definition IntervalSet_less_than (n : bound) : M loc :=
  letm i := lift (less_than n) in
  IntervalSet [AnInterval i].

Definition IntervalSet_less_than_or_equal_to (n : bound) : M loc :=
  letm i := lift (less_than_or_equal_to n) in
  IntervalSet [AnInterval i].

Definition IntervalSet_greater_than (n : bound) : M loc :=
  letm i := lift (greater_than n) in
  IntervalSet [AnInterval i].

Definition IntervalSet_greater_than_or_equal_to (n : bound) : M loc :=
  letm i := lift (greater_than_or_equal_to n) in
  IntervalSet [AnInterval i].

Definition IntervalSet_not_equal_to (n : bound) : M loc :=
  letm a := lift (less_than n) in
  letm b := lift (greater_than n) in
  IntervalSet [AnInterval a; AnInterval b].

Definition IntervalSet_between (a b : bound) (closed : bool) : M loc :=
  letm i := lift (between a b closed) in
  IntervalSet [AnInterval i].

Definition IntervalSet_all : M loc :=
  letm i := lift all in
  IntervalSet [AnInterval i].

(** [BaseIntervalSet.__invert__]: [self.__class__.all() - self]. *)
Definition __invert__ (self : loc) : M loc :=
  letm a := IntervalSet_all in
  __sub__ a self.

(** The operand of the named methods: a set, or an iterable of items from
    which a set is built first. *)
Inductive operand : Type :=
| ASet (s : loc)
| Items (items : list item).

Definition as_set (other : operand) : M loc :=
  match other with
  | ASet s => ret s
  | Items items => IntervalSet items
  end.

(** [union], [intersection], [difference], [symmetric_difference]. *)
Definition union (self : loc) (other : operand) : M loc :=
  letm o := as_set other in __or__ self o.

Definition intersection (self : loc) (other : operand) : M loc :=
  letm o := as_set other in __and__ self o.

Definition difference (self : loc) (other : operand) : M loc :=
  letm o := as_set other in __sub__ self o.

Definition symmetric_difference (self : loc) (other : operand) : M loc :=
  letm o := as_set other in __xor__ self o.

(** [IntervalSet.update] and the three other in-place operations: the
    result is computed, then [self.intervals] takes its list. *)
Definition update (self : loc) (other : operand) : M unit :=
  letm u := union self other in
  letm ivs := get_intervals u in
  set_intervals self ivs.

Definition difference_update (self : loc) (other : operand) : M unit :=
  letm d := difference self other in
  letm ivs := get_intervals d in
  set_intervals self ivs.

Definition intersection_update (self : loc) (other : operand) : M unit :=
  letm i := intersection self other in
  letm ivs := get_intervals i in
  set_intervals self ivs.

Definition symmetric_difference_update (self : loc) (other : operand) : M unit :=
  letm x := symmetric_difference self other in
  letm ivs := get_intervals x in
  set_intervals self ivs.

(** [IntervalSet.clear]. *)
Definition clear (self : loc) : M unit := set_intervals self [].

(** [IntervalSet.pop]: the last interval leaves the list; one whose bounds
    are equal is returned as its lower bound.  The source takes it out of
    the list in place ([self.intervals.pop()]); the store holds one list
    per object, so this is [pop] on a set that shares its list with no
    other object (a set made by [copy.copy] would share it). *)
Definition pop (self : loc) : M item :=
  letm ivs := get_intervals self in
  match last ivs with
  | Some i =>
    set_intervals self (removelast ivs) ;;
    ret (if py_eq (lower_bound i) (upper_bound i)
         then AValue (lower_bound i) else AnInterval i)
  | None => raise KeyError
  end.

End Intervals.

(** ** A concrete domain

    Integer keys of a consumer class that derives from
    [SupportsRichComparison] and orders its instances by key. *)
Definition Z_ltb_asym (a b : Z) : Z.ltb a b = true -> Z.ltb b a = false.
Proof. rewrite Z.ltb_lt, Z.ltb_ge. lia. Qed.

Definition Z_ltb_total (a b : Z) : a <> b -> Z.ltb a b = true \/ Z.ltb b a = true.
Proof. rewrite !Z.ltb_lt. lia. Qed.

Definition IntKey : SupportsRichComparison := {|
  carrier := Z;
  carrier_eq := Z.eqb;
  carrier_lt := Z.ltb;
  rich := fun _ => true;
  zero := 0%Z;
  carrier_eq_spec := Z.eqb_eq;
  carrier_lt_irrefl := Z.ltb_irrefl;
  carrier_lt_asym := Z_ltb_asym;
  carrier_lt_total := Z_ltb_total
|}.

Abbreviation loc := nat.
Abbreviation store := (list (list Interval)).

Definition IntInterval : Type := @Interval IntKey.

(** [iv l lc u uc] is the interval object from key [l] to key [u] with the
    given closures, as the body of [__init__] leaves it on the arguments
    [(l, u, closed=False, lower_closed=lc, upper_closed=uc)] when
    [l <= u]. *)
Definition iv (l : Z) (lc : bool) (u : Z) (uc : bool) : IntInterval :=
  @mkInterval IntKey (@Value IntKey l) lc (@Value IntKey u) uc.

(** The invariant an [IntervalSet] documents for its list: sorted by
    [comes_before], members pairwise neither overlapping nor adjacent, no
    member empty. *)
Fixpoint sorted_by {A} (lt : A -> A -> bool) (l : list A) : bool :=
  match l with
  | [] => true
  | x :: rest => forallb (lt x) rest && sorted_by lt rest
  end.

Definition apart `{SupportsRichComparison} (a b : Interval) : bool :=
  match overlaps a b, adjacent_to a b with
  | Ok false, Ok false => true
  | _, _ => false
  end.

Fixpoint pairwise {A} (p : A -> A -> bool) (l : list A) : bool :=
  match l with
  | [] => true
  | x :: rest => forallb (p x) rest && pairwise p rest
  end.

Definition canonical `{SupportsRichComparison} (l : list Interval) : bool :=
  sorted_by comes_before l && pairwise apart l && forallb nonzero l.

(** An interval both of whose bounds are values of the domain. *)
Definition bounded `{SupportsRichComparison} (i : Interval) : bool :=
  match lower_bound i, upper_bound i with
  | Value _, Value _ => true
  | _, _ => false
  end.

(** The consumer's order is transitive. *)
Definition transitive_order `{SupportsRichComparison} : Prop :=
  forall x y z : carrier,
    carrier_lt x y = true -> carrier_lt y z = true -> carrier_lt x z = true.

(** Two values of the domain are equal, or one is below the other; the
    three comparisons the code makes answer accordingly. *)
Inductive compared `{SupportsRichComparison} (x y : carrier) : Prop :=
| compared_eq :
    x = y -> carrier_eq x y = true -> carrier_eq y x = true ->
    carrier_lt x y = false -> carrier_lt y x = false -> compared x y
| compared_lt :
    carrier_eq x y = false -> carrier_eq y x = false ->
    carrier_lt x y = true -> carrier_lt y x = false -> compared x y
| compared_gt :
    carrier_eq x y = false -> carrier_eq y x = false ->
    carrier_lt x y = false -> carrier_lt y x = true -> compared x y.

(** The answers of [overlaps] and of [adjacent_to] when [self] is the one
    that comes first. *)
Definition overlaps_in_order `{SupportsRichComparison} (self other : Interval) : bool :=
  if py_lt (lower_bound other) (upper_bound self) then true
  else if py_eq (lower_bound other) (upper_bound self) then
    lower_closed other && upper_closed self
  else false.

Definition adjacent_in_order `{SupportsRichComparison} (self other : Interval) : bool :=
  if py_eq (upper_bound self) (lower_bound other) then
    negb (eqb (upper_closed self) (lower_closed other))
  else false.

(** What [self <= other] computes from the two stored lists. *)
Definition each_contained `{SupportsRichComparison} (xs ys : list Interval) : bool :=
  forallb (fun i => existsb (fun r => contains_interval r i) ys) xs.

(** ** Theory *)

Section Theory.
Context {D : SupportsRichComparison}.

(** *** Exceptions of the pure operations *)

Definition no_KeyError {A} (r : result A) : Prop :=
  match r with
  | Raise KeyError => False
  | _ => True
  end.

Ltac split_ifs :=
  repeat (match goal with |- context [if ?b then _ else _] => destruct b end).

Lemma no_KeyError_Ok {A} (a : A) : no_KeyError (Ok a).
Proof. exact I. Qed.

Lemma no_KeyError_rbind {A B} (r : result A) (k : A -> result B) :
  no_KeyError r -> (forall a, no_KeyError (k a)) -> no_KeyError (rbind r k).
Proof.
  intros Hr Hk. destruct r as [a|e]; simpl; [apply Hk | exact Hr].
Qed.

Lemma init_no_KeyError l u c lc uc : no_KeyError (init l u c lc uc).
Proof.
  unfold init, no_KeyError.
  split_ifs; exact I.
Qed.

Lemma new_Interval_raises l u c lc uc :
  new_Interval l u c lc uc = Raise abstract_class_error.
Proof. reflexivity. Qed.

Lemma new_Interval_no_KeyError l u c lc uc : no_KeyError (new_Interval l u c lc uc).
Proof. exact I. Qed.

Lemma overlaps_at_no_KeyError n a b : no_KeyError (overlaps_at n a b).
Proof.
  revert a b. induction n as [|n IH]; intros a b; simpl; [exact I|].
  split_ifs; try exact I.
  apply IH.
Qed.

Lemma adjacent_to_at_no_KeyError n a b : no_KeyError (adjacent_to_at n a b).
Proof.
  revert a b. induction n as [|n IH]; intros a b; simpl; [exact I|].
  split_ifs; try exact I.
  apply IH.
Qed.

Lemma or_else_no_KeyError (a b : result bool) :
  no_KeyError a -> no_KeyError b -> no_KeyError (or_else a b).
Proof.
  intros Ha Hb. unfold or_else. apply no_KeyError_rbind; [exact Ha|].
  intros [|]; [exact I | exact Hb].
Qed.

Lemma touching_no_KeyError a b :
  no_KeyError (or_else (overlaps a b) (adjacent_to a b)).
Proof.
  apply or_else_no_KeyError;
    [apply overlaps_at_no_KeyError | apply adjacent_to_at_no_KeyError].
Qed.

Lemma join_no_KeyError a b : no_KeyError (join a b).
Proof.
  unfold join. apply no_KeyError_rbind; [apply touching_no_KeyError|].
  intros [|]; [|exact I].
  split_ifs; exact I.
Qed.

Lemma add_loop_no_KeyError ivs r acc : no_KeyError (add_loop ivs r acc).
Proof.
  revert r acc. induction ivs as [|i rest IH]; intros r acc; simpl;
    [exact I|].
  apply no_KeyError_rbind; [apply touching_no_KeyError|].
  intros [|]; [|apply IH].
  apply no_KeyError_rbind; [apply join_no_KeyError | intros r'; apply IH].
Qed.

(** *** Frame rule of the stateful methods

    [only_fresh n m Q]: run in a store that already holds the objects
    below [n], [m] leaves every one of them as it was, does not raise
    [KeyError], and a value it returns satisfies [Q]. *)
Definition only_fresh {A} (n : nat) (m : M A) (Q : A -> Prop) : Prop :=
  forall s : store, n <= length s ->
    n <= length (m s).2
    /\ (forall l : nat, l < n -> (m s).2 !! l = s !! l)
    /\ no_KeyError (m s).1
    /\ (forall a, (m s).1 = Ok a -> Q a).

Lemma only_fresh_weaken {A} n (m : M A) (Q Q' : A -> Prop) :
  only_fresh n m Q -> (forall a, Q a -> Q' a) -> only_fresh n m Q'.
Proof.
  intros Hm HQ s Hs. destruct (Hm s Hs) as (H1 & H2 & H3 & H4).
  repeat split; auto.
Qed.

Lemma only_fresh_ret {A} n (a : A) (Q : A -> Prop) :
  Q a -> only_fresh n (ret a) Q.
Proof.
  intros HQ s Hs. simpl. repeat split; auto.
  intros a' [= <-]. exact HQ.
Qed.

Lemma only_fresh_lift {A} n (r : result A) (Q : A -> Prop) :
  no_KeyError r -> (forall a, r = Ok a -> Q a) -> only_fresh n (lift r) Q.
Proof. intros Hr HQ s Hs. simpl. repeat split; auto. Qed.

Lemma only_fresh_bind {A B} n (m : M A) (k : A -> M B) (Q1 : A -> Prop) Q2 :
  only_fresh n m Q1 ->
  (forall a, Q1 a -> only_fresh n (k a) Q2) ->
  only_fresh n (bind m k) Q2.
Proof.
  intros Hm Hk s Hs. destruct (Hm s Hs) as (H1 & H2 & H3 & H4).
  unfold bind. destruct (m s) as [[a|e] s1]; simpl in *.
  - destruct (Hk a (H4 a eq_refl) s1 H1) as (K1 & K2 & K3 & K4).
    repeat split; auto. intros l Hl. rewrite K2, H2; auto.
  - repeat split; auto. discriminate.
Qed.

Lemma only_fresh_alloc n v : only_fresh n (alloc v) (fun l => n <= l).
Proof.
  intros s Hs. unfold alloc. simpl. repeat split.
  - rewrite length_app. lia.
  - intros l Hl. apply lookup_app_l. lia.
  - intros a [= <-]. exact Hs.
Qed.

Lemma only_fresh_get n self : only_fresh n (get_intervals self) (fun _ => True).
Proof. intros s Hs. simpl. repeat split; auto. Qed.

Lemma only_fresh_set n self v :
  n <= self -> only_fresh n (set_intervals self v) (fun _ => True).
Proof.
  intros Hself s Hs. unfold set_intervals. simpl. repeat split.
  - rewrite length_insert. exact Hs.
  - intros l Hl. apply list_lookup_insert_ne. lia.
Qed.

Lemma only_fresh_for_each {X} n (xs : list X) (body : X -> M unit) :
  (forall x, only_fresh n (body x) (fun _ => True)) ->
  only_fresh n (for_each xs body) (fun _ => True).
Proof.
  intros Hbody. induction xs as [|x rest IH]; simpl.
  - apply only_fresh_ret. exact I.
  - eapply only_fresh_bind; [apply Hbody | intros _ _; exact IH].
Qed.

Lemma only_fresh_if {A} n (c : bool) (m1 m2 : M A) Q :
  only_fresh n m1 Q -> only_fresh n m2 Q ->
  only_fresh n (if c then m1 else m2) Q.
Proof. destruct c; auto. Qed.

(** Every method writes only to [self] or to objects it has created. *)
Lemma _add_only_fresh n self obj :
  n <= self -> only_fresh n (_add self obj) (fun _ => True).
Proof.
  intros Hself. unfold _add.
  eapply only_fresh_bind with (Q1 := fun _ => True).
  - apply only_fresh_lift; [|auto].
    destruct obj; [exact I | exact I].
  - intros r _. simpl.
    eapply only_fresh_bind; [apply only_fresh_get|]. intros ivs _.
    eapply only_fresh_bind with (Q1 := fun _ => True).
    + apply only_fresh_lift; [apply add_loop_no_KeyError | auto].
    + intros [r' newIntervals] _. apply only_fresh_set. exact Hself.
Qed.

Lemma IntervalSet_only_fresh n items :
  only_fresh n (IntervalSet items) (fun l => n <= l).
Proof.
  unfold IntervalSet.
  eapply only_fresh_bind; [apply only_fresh_alloc|]. intros self Hself.
  eapply only_fresh_bind.
  - apply only_fresh_for_each. intros x. apply _add_only_fresh. exact Hself.
  - intros _ _. apply only_fresh_ret. exact Hself.
Qed.

Lemma IntervalSet_of_only_fresh n s :
  only_fresh n (IntervalSet_of s) (fun l => n <= l).
Proof.
  unfold IntervalSet_of.
  eapply only_fresh_bind; [apply only_fresh_get|]. intros ivs _.
  apply IntervalSet_only_fresh.
Qed.

Lemma add_interval_only_fresh n self (r : result Interval) :
  n <= self -> no_KeyError r ->
  only_fresh n (letm x := lift r in add self (AnInterval x)) (fun _ => True).
Proof.
  intros Hself Hr.
  eapply only_fresh_bind with (Q1 := fun _ => True).
  - apply only_fresh_lift; auto.
  - intros x _. apply _add_only_fresh. exact Hself.
Qed.

Lemma __or___only_fresh n self other :
  only_fresh n (__or__ self other) (fun l => n <= l).
Proof.
  unfold __or__.
  eapply only_fresh_bind; [apply IntervalSet_of_only_fresh|]. intros union Hu.
  eapply only_fresh_bind; [apply only_fresh_get|]. intros rs _.
  eapply only_fresh_bind.
  - apply only_fresh_for_each. intros r. apply _add_only_fresh. exact Hu.
  - intros _ _. apply IntervalSet_of_only_fresh.
Qed.

Lemma sub_body_only_fresh n temp j i :
  n <= temp -> only_fresh n (sub_body temp j i) (fun _ => True).
Proof.
  intros Ht. unfold sub_body.
  eapply only_fresh_bind with (Q1 := fun _ => True).
  - apply only_fresh_lift; [apply overlaps_at_no_KeyError | auto].
  - intros c _. unfold ne_None.
    repeat apply only_fresh_if;
      try (apply add_interval_only_fresh; [exact Ht | exact I]);
      try (apply _add_only_fresh; exact Ht).
    + apply only_fresh_ret. exact I.
    + eapply only_fresh_bind with (Q1 := fun _ => True);
        [|intros _ _];
        repeat apply only_fresh_if;
        try (apply only_fresh_ret; exact I);
        apply add_interval_only_fresh;
        solve [exact Ht | exact I].
Qed.

Lemma sub_loop_only_fresh n js result :
  n <= result -> only_fresh n (sub_loop js result) (fun l => n <= l).
Proof.
  revert result. induction js as [|j rest IH]; intros result Hr; simpl.
  - apply only_fresh_ret. exact Hr.
  - eapply only_fresh_bind; [apply IntervalSet_only_fresh|]. intros temp Ht.
    eapply only_fresh_bind; [apply only_fresh_get|]. intros ivs _.
    eapply only_fresh_bind.
    + apply only_fresh_for_each. intros i. apply sub_body_only_fresh. exact Ht.
    + intros _ _. apply IH. exact Ht.
Qed.

Lemma __sub___only_fresh n self other :
  only_fresh n (__sub__ self other) (fun l => n <= l).
Proof.
  unfold __sub__.
  eapply only_fresh_bind; [apply IntervalSet_of_only_fresh|]. intros result Hr.
  eapply only_fresh_bind; [apply only_fresh_get|]. intros js _.
  eapply only_fresh_bind; [apply sub_loop_only_fresh; exact Hr|].
  intros result' _. apply IntervalSet_of_only_fresh.
Qed.

Lemma and_body_only_fresh n result j i :
  n <= result -> only_fresh n (and_body result j i) (fun _ => True).
Proof.
  intros Hr. unfold and_body.
  eapply only_fresh_bind with (Q1 := fun _ => True).
  - apply only_fresh_lift; [apply overlaps_at_no_KeyError | auto].
  - intros c _.
    repeat apply only_fresh_if;
      try (apply add_interval_only_fresh; [exact Hr | exact I]);
      try (apply _add_only_fresh; exact Hr).
    apply only_fresh_ret. exact I.
Qed.

Lemma __and___only_fresh n self other :
  only_fresh n (__and__ self other) (fun l => n <= l).
Proof.
  unfold __and__.
  eapply only_fresh_bind; [apply IntervalSet_only_fresh|]. intros result Hr.
  eapply only_fresh_bind; [apply only_fresh_get|]. intros js _.
  eapply only_fresh_bind; [apply only_fresh_get|]. intros ivs _.
  eapply only_fresh_bind.
  - apply only_fresh_for_each. intros j.
    apply only_fresh_for_each. intros i. apply and_body_only_fresh. exact Hr.
  - intros _ _. apply IntervalSet_of_only_fresh.
Qed.

Lemma __xor___only_fresh n self other :
  only_fresh n (__xor__ self other) (fun l => n <= l).
Proof.
  unfold __xor__.
  eapply only_fresh_bind; [apply __or___only_fresh|]. intros u _.
  eapply only_fresh_bind; [apply __and___only_fresh|]. intros i _.
  apply __sub___only_fresh.
Qed.

Lemma discard_only_fresh self obj :
  only_fresh 0 (discard self obj) (fun _ => True).
Proof.
  unfold discard.
  eapply only_fresh_bind; [apply IntervalSet_only_fresh|]. intros o _.
  eapply only_fresh_bind; [apply __sub___only_fresh|]. intros diff _.
  eapply only_fresh_bind; [apply only_fresh_get|]. intros ivs _.
  apply only_fresh_set. lia.
Qed.

(** *** Facts on bounds and intervals *)

Lemma py_eq_refl (b : bound) : py_eq b b = true.
Proof. destruct b; simpl; auto. apply carrier_eq_spec. reflexivity. Qed.

Lemma interval_eq_refl (a : Interval) : interval_eq a a = true.
Proof.
  unfold interval_eq. rewrite !py_eq_refl, !eqb_reflx. reflexivity.
Qed.

Lemma contains_loop_interval (ivs : list Interval) (i : Interval) :
  contains_loop ivs (AnInterval i)
  = Ok (existsb (fun r => contains_interval r i) ivs).
Proof.
  induction ivs as [|r rest IH]; simpl; [reflexivity|].
  destruct (contains_interval r i); simpl; auto.
Qed.

(** No interval contains an interval that has an end at [-Inf] or at
    [Inf]. *)
Lemma unbounded_not_contained (r i : Interval) :
  lower_bound i = Smallest \/ upper_bound i = Largest ->
  contains_interval r i = false.
Proof.
  unfold contains_interval. intros [H|H]; rewrite H; simpl.
  - reflexivity.
  - apply andb_false_r.
Qed.

Lemma remove_unfold (s : store) (self : loc) (obj : item) :
  remove self obj s
  = match contains_loop (default [] (s !! self)) obj with
    | Ok true => discard self obj s
    | Ok false => (Raise KeyError, s)
    | Raise e => (Raise e, s)
    end.
Proof.
  unfold remove, __contains__, get_intervals, lift, raise, bind.
  destruct (contains_loop _ obj) as [[|]|e]; reflexivity.
Qed.

(** [overlaps] calls itself at most once unless each operand comes before
    the other. *)
Lemma overlaps_at_depth (n : nat) (a b : Interval) :
  comes_before a b && comes_before b a = false ->
  overlaps_at (S (S n)) a b = overlaps_at 2 a b.
Proof.
  intros H. simpl.
  destruct (interval_eq a b); [reflexivity|].
  destruct (comes_before b a) eqn:Hba; [|reflexivity].
  destruct (interval_eq b a); [reflexivity|].
  rewrite andb_true_r in H. rewrite H. reflexivity.
Qed.

Lemma init_reversed_raises (l u : bound) (closed lc uc : bool) :
  py_lt u l = true -> exists e, init l u closed lc uc = Raise e.
Proof.
  intros Hlt. unfold init. rewrite Hlt.
  destruct (isinstance_comparable l), (isinstance_comparable u); simpl; eauto.
Qed.

Lemma new_Interval_not_ArithmeticError l u c lc uc msg :
  new_Interval l u c lc uc <> Raise (ArithmeticError msg).
Proof. discriminate. Qed.

(** [join] raises its own error exactly when the two tests answer no. *)
Lemma join_disjoint_error (a b : Interval) :
  join a b = Raise (ArithmeticError "The Intervals are disjoint.")
  <-> or_else (overlaps a b) (adjacent_to a b) = Ok false
      \/ or_else (overlaps a b) (adjacent_to a b)
         = Raise (ArithmeticError "The Intervals are disjoint.").
Proof.
  unfold join.
  destruct (or_else (overlaps a b) (adjacent_to a b)) as [[|]|e]; simpl.
  - split; [|intros [H|H]; discriminate].
    intros H. exfalso. revert H. split_ifs; apply new_Interval_not_ArithmeticError.
  - split; auto.
  - split; [intros [= ->]; right; reflexivity|].
    intros [H|H]; [discriminate | injection H as ->; reflexivity].
Qed.

(** *** The claims *)

(** C10. The binary operations [|], [&], [-] and [^] leave both operands
    as they were: when [a op b] returns, the objects [a] and [b] hold the
    lists they held before. *)
Theorem binary_operations_keep_operands (s : store) (a b : loc) :
  a < length s -> b < length s ->
  forall op : loc -> loc -> M loc,
    In op [__or__; __and__; __sub__; __xor__] ->
    forall (c : loc) (s' : store),
      op a b s = (Ok c, s') ->
      s' !! a = s !! a /\ s' !! b = s !! b.
Proof.
  intros Ha Hb op Hop c s' Hrun.
  assert (Hfresh : only_fresh (length s) (op a b) (fun l => length s <= l)).
  { simpl in Hop.
    destruct Hop as [<-|[<-|[<-|[<-|[]]]]];
      [ apply __or___only_fresh | apply __and___only_fresh
      | apply __sub___only_fresh | apply __xor___only_fresh ]. }
  destruct (Hfresh s (le_n _)) as (_ & Hkeep & _).
  rewrite Hrun in Hkeep. simpl in Hkeep. split; apply Hkeep; assumption.
Qed.

(** [remove] of an interval that no stored interval contains raises
    [KeyError] and leaves the store as it was. *)
Lemma remove_not_contained (s : store) (self : loc) (i : Interval) :
  (forall r, In r (default [] (s !! self)) -> contains_interval r i = false) ->
  remove self (AnInterval i) s = (Raise KeyError, s).
Proof.
  intros H. rewrite remove_unfold, contains_loop_interval.
  destruct (existsb _ _) eqn:E; [|reflexivity].
  apply existsb_exists in E. destruct E as (r & Hr & Hc).
  rewrite (H r Hr) in Hc. discriminate.
Qed.

(** [KeyError] comes from [remove] itself, before anything is assigned. *)
Lemma remove_KeyError_unchanged (s : store) (self : loc) (obj : item) :
  (remove self obj s).1 = Raise KeyError -> (remove self obj s).2 = s.
Proof.
  rewrite remove_unfold.
  destruct (contains_loop _ obj) as [[|]|e]; simpl; auto.
  intros H.
  destruct (discard_only_fresh self obj s (Nat.le_0_l _)) as (_ & _ & Hnk & _).
  rewrite H in Hnk. destruct Hnk.
Qed.

(** The part of the order of the sentinels the code does keep. *)
Lemma sentinels_ordered (v : carrier) :
  py_eq Smallest Smallest = true /\ py_eq Largest Largest = true
  /\ py_lt Smallest (Value v) = true /\ py_lt (Value v) Largest = true
  /\ py_eq Smallest (Value v) = false /\ py_eq (Value v) Smallest = false
  /\ py_eq Largest (Value v) = false /\ py_eq (Value v) Largest = false.
Proof. repeat split. Qed.

(** C8. [Smallest() < Smallest()] is [True] and [Largest() > Largest()] is
    [True]: each sentinel compares strictly below (above) itself, although
    it equals itself. *)
Theorem sentinel_strictly_below_itself :
  py_lt Smallest Smallest = true /\ py_eq Smallest Smallest = true
  /\ py_gt Largest Largest = true /\ py_eq Largest Largest = true.
Proof. repeat split. Qed.

(** The bodies the five unbounded constructors would run: [closed] is
    left at [True], which closes the unbounded end, and the body raises. *)
Lemma unbounded_bodies_raise :
  let unbound := ValueError "Unbound ends cannot be included in an interval." in
  init default_lower default_upper default_closed
       default_lower_closed default_upper_closed = Raise unbound
  /\ forall v : carrier,
       rich v = true ->
       init default_lower (Value v) default_closed default_lower_closed false
       = Raise unbound
       /\ init default_lower (Value v) default_closed default_lower_closed true
          = Raise unbound
       /\ init (Value v) default_upper default_closed false default_upper_closed
          = Raise unbound
       /\ init (Value v) default_upper default_closed true default_upper_closed
          = Raise unbound.
Proof.
  split; [reflexivity|]. intros v Hv. unfold init. simpl. rewrite Hv.
  repeat split.
Qed.

(** C1. [Interval.all()] raises [TypeError], and so does each of
    [less_than], [less_than_or_equal_to], [greater_than] and
    [greater_than_or_equal_to] on every argument: [Interval] has abstract
    methods left and cannot be instantiated. *)
Theorem unbounded_constructors_raise :
  all = Raise abstract_class_error
  /\ forall v : bound,
       less_than v = Raise abstract_class_error
       /\ less_than_or_equal_to v = Raise abstract_class_error
       /\ greater_than v = Raise abstract_class_error
       /\ greater_than_or_equal_to v = Raise abstract_class_error.
Proof. repeat split. Qed.

(** The body [Interval.none()] would run, [cls(0, 0, closed=False)]: the
    two closure flags keep their default [True], so it returns the closed
    point [0], which is not empty. *)
Lemma none_body_closed_point :
  init (Value zero) (Value zero) false default_lower_closed default_upper_closed
  = (if rich zero
     then Ok (mkInterval (Value zero) true (Value zero) true)
     else Raise (TypeError "lower_bound is not comparable."))
  /\ nonzero (mkInterval (Value zero) true (Value zero) true) = true.
Proof.
  split.
  - unfold init. simpl. rewrite carrier_lt_irrefl.
    destruct (rich zero); reflexivity.
  - unfold nonzero. simpl. apply orb_true_r.
Qed.

(** C3. [Interval.none()] raises [TypeError]: it is [cls(0, 0,
    closed=False)] on a class that cannot be instantiated.  It returns no
    interval, empty or not. *)
Theorem none_raises :
  none = Raise abstract_class_error
  /\ forall i : Interval, none <> Ok i.
Proof. split; [reflexivity | discriminate]. Qed.

(** C7, as the code has it.  Two intervals with the same domain value as
    lower bound, the same lower closure and the same domain value as upper
    bound, whose upper closures differ: the one with the open upper end
    comes before the one with the closed upper end, and not the other way
    round.  No interval comes before itself. *)
Theorem open_upper_comes_before_closed (a b : Interval) (l u : carrier) :
  lower_bound a = Value l -> lower_bound b = Value l ->
  lower_closed a = lower_closed b ->
  upper_bound a = Value u -> upper_bound b = Value u ->
  upper_closed a = false -> upper_closed b = true ->
  comes_before a b = true /\ comes_before b a = false
  /\ forall c : Interval, comes_before c c = false.
Proof.
  intros Hla Hlb Hlc Hua Hub Hca Hcb.
  assert (Heq : forall x : carrier, carrier_eq x x = true)
    by (intros x; apply carrier_eq_spec; reflexivity).
  repeat split.
  - unfold comes_before, interval_eq.
    rewrite Hla, Hlb, Hlc, Hua, Hub, Hca, Hcb. simpl.
    rewrite !Heq, !carrier_lt_irrefl, eqb_reflx. reflexivity.
  - unfold comes_before, interval_eq.
    rewrite Hla, Hlb, Hlc, Hua, Hub, Hca, Hcb. simpl.
    rewrite !Heq, !carrier_lt_irrefl, eqb_reflx. reflexivity.
  - intros c. unfold comes_before. rewrite interval_eq_refl. reflexivity.
Qed.

End Theory.

(** ** The other methods: what the code does *)

Section Methods.
Context {D : SupportsRichComparison}.

Ltac case_ifs :=
  repeat (match goal with |- context [if ?b then _ else _] => destruct b end).

(** *** The order of the domain *)

Lemma carrier_eq_refl (x : carrier) : carrier_eq x x = true.
Proof. apply carrier_eq_spec. reflexivity. Qed.

Lemma carrier_eq_false (x y : carrier) : x <> y -> carrier_eq x y = false.
Proof.
  intros Hne. destruct (carrier_eq x y) eqn:E; [|reflexivity].
  apply carrier_eq_spec in E. contradiction.
Qed.

Lemma compare_carrier (x y : carrier) : compared x y.
Proof.
  destruct (carrier_eq x y) eqn:E.
  - apply carrier_eq_spec in E. subst y.
    apply compared_eq; auto using carrier_eq_refl, carrier_lt_irrefl.
  - assert (Hne : x <> y).
    { intros ->. rewrite carrier_eq_refl in E. discriminate. }
    assert (E' : carrier_eq y x = false) by (apply carrier_eq_false; auto).
    destruct (carrier_lt_total x y Hne) as [H|H].
    + apply compared_lt; auto using carrier_lt_asym.
    + apply compared_gt; auto using carrier_lt_asym.
Qed.

Ltac compare_values x y :=
  let H1 := fresh in let H2 := fresh in let H3 := fresh in
  let H4 := fresh in let H5 := fresh in
  destruct (compare_carrier x y) as [H1 H2 H3 H4 H5|H1 H2 H3 H4|H1 H2 H3 H4];
  repeat match goal with
         | H : carrier_eq _ _ = _ |- _ => rewrite ?H in *; clear H
         | H : carrier_lt _ _ = _ |- _ => rewrite ?H in *; clear H
         end.

Lemma py_eq_sym (x y : bound) : py_eq x y = py_eq y x.
Proof.
  destruct x as [| |a], y as [| |b]; simpl; try reflexivity.
  destruct (compare_carrier a b) as [? H1 H2|H1 H2|H1 H2]; rewrite H1, H2; reflexivity.
Qed.

Lemma interval_eq_sym (a b : Interval) : interval_eq a b = interval_eq b a.
Proof.
  unfold interval_eq.
  rewrite (py_eq_sym (upper_bound a)), (py_eq_sym (lower_bound a)).
  destruct (upper_closed a), (upper_closed b), (lower_closed a), (lower_closed b);
    reflexivity.
Qed.

Lemma bounded_inv (i : Interval) :
  bounded i = true ->
  exists l u, lower_bound i = Value l /\ upper_bound i = Value u.
Proof.
  unfold bounded. destruct (lower_bound i), (upper_bound i); try discriminate.
  eauto.
Qed.

(** *** The constructor *)

(** On success the arguments passed the guards. *)
Lemma init_Ok l u c lc uc i :
  init l u c lc uc = Ok i ->
  i = mkInterval l (c || lc) u (c || uc)
  /\ isinstance_comparable l = true /\ isinstance_comparable u = true
  /\ py_lt u l = false
  /\ (py_eq l minus_Inf && (c || lc)) || (py_eq u Inf && (c || uc)) = false.
Proof.
  unfold init.
  destruct (isinstance_comparable l); [|discriminate].
  destruct (isinstance_comparable u); [|discriminate].
  destruct (py_lt u l); [discriminate|]. simpl.
  destruct (_ || _); [discriminate|].
  intros [= <-]. auto.
Qed.

Lemma init_closed_Ok l u lc uc i :
  init l u true lc uc = Ok i ->
  exists a b, i = mkInterval (Value a) true (Value b) true
              /\ l = Value a /\ u = Value b
              /\ rich a = true /\ rich b = true /\ carrier_lt b a = false.
Proof.
  intros H. apply init_Ok in H. destruct H as (-> & Hl & Hu & Hlt & Hinf).
  simpl in Hinf. rewrite !andb_true_r in Hinf.
  apply orb_false_elim in Hinf. destruct Hinf as [H1 H2].
  destruct l as [| |a], u as [| |b]; simpl in *; try discriminate.
  exists a, b. repeat split; assumption.
Qed.

(** X1. When the body of [__init__] returns, the bounds it has stored are
    comparable and not reversed, a lower end at [-Inf] is open and an upper
    end at [Inf] is open. *)
Theorem constructor_invariant l u c lc uc i :
  init l u c lc uc = Ok i ->
  isinstance_comparable (lower_bound i) = true
  /\ isinstance_comparable (upper_bound i) = true
  /\ py_lt (upper_bound i) (lower_bound i) = false
  /\ (lower_bound i = Smallest -> lower_closed i = false)
  /\ (upper_bound i = Largest -> upper_closed i = false).
Proof.
  intros H. apply init_Ok in H. destruct H as (-> & Hl & Hu & Hlt & Hinf).
  simpl. apply orb_false_elim in Hinf. destruct Hinf as [H1 H2].
  repeat split; auto.
  - intros ->. simpl in H1. exact H1.
  - intros ->. simpl in H2. exact H2.
Qed.

(** X2. Called with [closed] at its default [True], the constructor
    returns only intervals closed at both ends whose bounds are values of
    the domain: it never returns an interval with an unbounded end. *)
Theorem default_closed_interval l u lc uc i :
  init l u default_closed lc uc = Ok i ->
  lower_closed i = true /\ upper_closed i = true /\ bounded i = true.
Proof.
  intros H. apply init_closed_Ok in H.
  destruct H as (a & b & -> & _). repeat split.
Qed.


(** X4. [Interval.equal_to] raises [TypeError] on every argument, a value
    of the domain or a sentinel: it is [cls(a, a)] on a class that cannot
    be instantiated. *)
Theorem equal_to_raises_TypeError (a : bound) :
  equal_to a = Raise abstract_class_error
  /\ forall i : Interval, equal_to a <> Ok i.
Proof. split; [reflexivity | discriminate]. Qed.

(** *** Containment *)

(** X5. [v in interval], for an object [v] that is not an interval, raises
    [TypeError]: the method wraps [v] by [Interval.equal_to(v)], which
    instantiates [Interval].  In a set, [v in s] is [False] when the set is
    empty and raises as soon as the set has a member to ask. *)
Theorem value_membership_raises (i : Interval) (v : bound) :
  contains i (AValue v) = Raise abstract_class_error
  /\ contains_loop [] (AValue v) = Ok false
  /\ forall rest, contains_loop (i :: rest) (AValue v) = Raise abstract_class_error.
Proof. repeat split. Qed.

(** X6. An interval contains itself exactly when its lower bound is not
    [-Inf] and its upper bound is not [Inf]: [Smallest() < Smallest()] and
    [Largest() > Largest()] put an unbounded interval outside itself. *)
Theorem contains_itself (a : Interval) :
  contains_interval a a
  = negb (is_Smallest (lower_bound a)) && negb (is_Largest (upper_bound a)).
Proof.
  unfold contains_interval.
  destruct (lower_bound a) as [| |l], (upper_bound a) as [| |u]; simpl;
    rewrite ?carrier_lt_irrefl, ?carrier_eq_refl;
    destruct (lower_closed a), (upper_closed a); reflexivity.
Qed.

(** *** The order of intervals *)

Lemma comes_before_cases (a b : Interval) :
  bounded a = true -> bounded b = true ->
  (interval_eq a b = true /\ comes_before a b = false /\ comes_before b a = false)
  \/ (interval_eq a b = false /\ comes_before a b = true /\ comes_before b a = false)
  \/ (interval_eq a b = false /\ comes_before a b = false /\ comes_before b a = true).
Proof.
  intros Ha Hb.
  destruct (bounded_inv a Ha) as (la & ua & Hla & Hua).
  destruct (bounded_inv b Hb) as (lb & ub & Hlb & Hub).
  unfold comes_before. rewrite (interval_eq_sym b a).
  unfold interval_eq. rewrite Hla, Hua, Hlb, Hub. simpl.
  compare_values la lb; compare_values ua ub;
    destruct (lower_closed a), (lower_closed b), (upper_closed a), (upper_closed b);
    simpl; auto.
Qed.

(** X7. On intervals whose bounds are values of the domain [comes_before]
    is a strict total comparison: of [a == b], [a.comes_before(b)] and
    [b.comes_before(a)] exactly one holds. *)
Theorem comes_before_trichotomy (a b : Interval) :
  bounded a = true -> bounded b = true ->
  (interval_eq a b = true /\ comes_before a b = false /\ comes_before b a = false)
  \/ (interval_eq a b = false /\ comes_before a b = true /\ comes_before b a = false)
  \/ (interval_eq a b = false /\ comes_before a b = false /\ comes_before b a = true).
Proof. apply comes_before_cases. Qed.

(** *** [overlaps] and [adjacent_to] *)

Lemma overlaps_at_S (d : nat) (self other : Interval) :
  overlaps_at (S d) self other
  = if interval_eq self other then Ok true
    else if comes_before other self then overlaps_at d other self
    else if py_lt (lower_bound other) (upper_bound self) then Ok true
    else if py_eq (lower_bound other) (upper_bound self) then
      Ok (lower_closed other && upper_closed self)
    else Ok false.
Proof. reflexivity. Qed.

(** The only exception [overlaps] raises is [RecursionError]. *)
Lemma overlaps_at_outcome (depth : nat) (a b : Interval) (e : exn) :
  overlaps_at depth a b = Raise e -> e = RecursionError.
Proof.
  revert a b. induction depth as [|d IH]; intros a b H.
  - injection H as <-. reflexivity.
  - rewrite overlaps_at_S in H. revert H. case_ifs; try discriminate. apply IH.
Qed.

Lemma adjacent_to_at_S (d : nat) (self other : Interval) :
  adjacent_to_at (S d) self other
  = if comes_before self other then
      if py_eq (upper_bound self) (lower_bound other) then
        Ok (negb (eqb (upper_closed self) (lower_closed other)))
      else Ok false
    else if interval_eq self other then Ok false
    else adjacent_to_at d other self.
Proof. reflexivity. Qed.

Lemma overlaps_bounded (a b : Interval) :
  bounded a = true -> bounded b = true ->
  overlaps a b
  = Ok (if interval_eq a b then true
        else if comes_before b a then overlaps_in_order b a
        else overlaps_in_order a b).
Proof.
  intros Ha Hb. unfold overlaps, recursion_limit, overlaps_in_order.
  rewrite overlaps_at_S.
  destruct (comes_before_cases a b Ha Hb) as [(E & H1 & H2)|[(E & H1 & H2)|(E & H1 & H2)]];
    rewrite E, ?H2; try reflexivity.
  - case_ifs; reflexivity.
  - rewrite overlaps_at_S, (interval_eq_sym b a), E, H1. case_ifs; reflexivity.
Qed.

Lemma adjacent_to_bounded (a b : Interval) :
  bounded a = true -> bounded b = true ->
  adjacent_to a b
  = Ok (if comes_before a b then adjacent_in_order a b
        else if interval_eq a b then false
        else adjacent_in_order b a).
Proof.
  intros Ha Hb. unfold adjacent_to, recursion_limit, adjacent_in_order.
  rewrite adjacent_to_at_S.
  destruct (comes_before_cases a b Ha Hb) as [(E & H1 & H2)|[(E & H1 & H2)|(E & H1 & H2)]];
    rewrite ?E, H1; try reflexivity.
  - case_ifs; reflexivity.
  - rewrite ?E, adjacent_to_at_S, H2. case_ifs; reflexivity.
Qed.

Lemma touching_bounded_sym (a b : Interval) :
  bounded a = true -> bounded b = true ->
  overlaps a b = overlaps b a /\ adjacent_to a b = adjacent_to b a.
Proof.
  intros Ha Hb.
  rewrite !overlaps_bounded, !adjacent_to_bounded by assumption.
  rewrite (interval_eq_sym b a).
  destruct (comes_before_cases a b Ha Hb) as [(E & H1 & H2)|[(E & H1 & H2)|(E & H1 & H2)]];
    rewrite ?E, ?H1, ?H2; split; reflexivity.
Qed.

(** X8. On intervals whose bounds are values of the domain [overlaps] and
    [adjacent_to] return, do not depend on the order of the operands, and
    are never both [True]. *)
Theorem touching_tests_symmetric (a b : Interval) :
  bounded a = true -> bounded b = true ->
  (exists o j, overlaps a b = Ok o /\ adjacent_to a b = Ok j
               /\ (o && j = false))
  /\ overlaps a b = overlaps b a
  /\ adjacent_to a b = adjacent_to b a.
Proof.
  intros Ha Hb. split; [|apply touching_bounded_sym; assumption].
  rewrite overlaps_bounded, adjacent_to_bounded by assumption.
  eexists. eexists. split; [reflexivity|]. split; [reflexivity|].
  destruct (bounded_inv a Ha) as (la & ua & Hla & Hua).
  destruct (bounded_inv b Hb) as (lb & ub & Hlb & Hub).
  destruct (comes_before_cases a b Ha Hb) as [(E & H1 & H2)|[(E & H1 & H2)|(E & H1 & H2)]];
    rewrite ?E, ?H1, ?H2; try reflexivity;
    unfold overlaps_in_order, adjacent_in_order;
    rewrite ?Hla, ?Hua, ?Hlb, ?Hub; simpl.
  - compare_values lb ua;
      destruct (upper_closed a), (lower_closed b); reflexivity.
  - compare_values la ub;
      destruct (upper_closed b), (lower_closed a); reflexivity.
Qed.

(** X9. For two different intervals that both start at [-Inf], [overlaps]
    never answers: each comes before the other, the method keeps calling
    itself with the operands exchanged, and Python raises
    [RecursionError] whatever depth it allows. *)
Theorem overlaps_unbounded_below_recursion (a b : Interval) :
  lower_bound a = Smallest -> lower_bound b = Smallest ->
  interval_eq a b = false ->
  forall depth, overlaps_at depth a b = Raise RecursionError.
Proof.
  intros Ha Hb E depth. revert a b Ha Hb E.
  induction depth as [|d IH]; intros a b Ha Hb E; [reflexivity|].
  rewrite overlaps_at_S, E.
  assert (Hcb : comes_before b a = true).
  { unfold comes_before. rewrite interval_eq_sym, E, Hb. reflexivity. }
  rewrite Hcb. apply IH; auto. rewrite interval_eq_sym. exact E.
Qed.

(** *** [join] *)

(** [join] passes the two tests and then calls [Interval(...)]. *)
Lemma join_outcome (a b : Interval) :
  join a b
  = match or_else (overlaps a b) (adjacent_to a b) with
    | Ok true => Raise abstract_class_error
    | Ok false => Raise (ArithmeticError "The Intervals are disjoint.")
    | Raise e => Raise e
    end.
Proof.
  unfold join.
  destruct (or_else (overlaps a b) (adjacent_to a b)) as [[|]|e]; simpl;
    try reflexivity.
  case_ifs; reflexivity.
Qed.

(** X10. [join] never returns an interval.  When the operands overlap or
    are adjacent it raises [TypeError], at the [Interval(...)] that would
    build the result; when they do neither it raises [ArithmeticError];
    and when one of the two tests raises, so does [join]. *)
Theorem join_never_returns (a b : Interval) :
  (forall c, join a b <> Ok c)
  /\ join a b
     = match or_else (overlaps a b) (adjacent_to a b) with
       | Ok true => Raise abstract_class_error
       | Ok false => Raise (ArithmeticError "The Intervals are disjoint.")
       | Raise e => Raise e
       end.
Proof.
  split; [|apply join_outcome].
  intros c. rewrite join_outcome.
  destruct (or_else (overlaps a b) (adjacent_to a b)) as [[|]|e]; discriminate.
Qed.

Lemma join_bounded_comm (a b : Interval) :
  bounded a = true -> bounded b = true -> join a b = join b a.
Proof.
  intros Ha Hb. rewrite !join_outcome.
  destruct (touching_bounded_sym a b Ha Hb) as [-> ->]. reflexivity.
Qed.

(** X11. On intervals whose bounds are values of the domain [join] does
    not depend on the order of its operands. *)
Theorem join_commutative (a b : Interval) :
  bounded a = true -> bounded b = true -> join a b = join b a.
Proof. apply join_bounded_comm. Qed.

(** *** [Interval.__and__] *)

Lemma interval_and_at_S (d : nat) (self other : Interval) :
  interval_and_at (S d) self other
  = if interval_eq self other then
      letr result := new_Interval default_lower default_upper default_closed
                                  default_lower_closed default_upper_closed in
      Ok (mkInterval (lower_bound self) (lower_closed self)
                     (upper_bound self) (upper_closed self))
    else if comes_before self other then
      letr c := overlaps self other in
      if c then
        let '(lower, lc) :=
          if py_eq (lower_bound self) (lower_bound other) then
            (lower_bound self, lower_closed self && lower_closed other)
          else if py_gt (lower_bound self) (lower_bound other) then
            (lower_bound self, lower_closed self)
          else (lower_bound other, lower_closed other) in
        let '(upper, uc) :=
          if py_eq (upper_bound self) (upper_bound other) then
            (upper_bound self, upper_closed self && upper_closed other)
          else if py_lt (upper_bound self) (upper_bound other) then
            (upper_bound self, upper_closed self)
          else (upper_bound other, upper_closed other) in
        new_Interval lower upper default_closed lc uc
      else none
    else interval_and_at d other self.
Proof. reflexivity. Qed.

Lemma interval_and_at_raises (depth : nat) (a b : Interval) :
  interval_and_at depth a b = Raise abstract_class_error
  \/ interval_and_at depth a b = Raise RecursionError.
Proof.
  revert a b. induction depth as [|d IH]; intros a b; [right; reflexivity|].
  rewrite interval_and_at_S.
  destruct (interval_eq a b); [left; reflexivity|].
  destruct (comes_before a b); [|apply IH].
  destruct (overlaps a b) as [[|]|e] eqn:Ho; simpl.
  - left. case_ifs; reflexivity.
  - left. reflexivity.
  - right. apply overlaps_at_outcome in Ho. rewrite Ho. reflexivity.
Qed.

(** X12. [a & a] raises [TypeError] for every interval [a]: the branch for
    equal operands starts from [Interval()], and [Interval] cannot be
    instantiated. *)
Theorem intersection_with_itself_raises (a : Interval) :
  interval_and a a = Raise abstract_class_error.
Proof.
  unfold interval_and, recursion_limit.
  rewrite interval_and_at_S, interval_eq_refl. reflexivity.
Qed.

(** X13. [&] on two intervals never returns an interval, at whatever depth
    of calls: each of its three branches ends in a call of the constructor
    ([Interval()], [Interval(...)], [Interval.none()]), so it raises
    [TypeError], unless the calls run out first ([RecursionError]). *)
Theorem intersection_never_returns (depth : nat) (a b : Interval) :
  (forall c, interval_and_at depth a b <> Ok c)
  /\ (interval_and_at depth a b = Raise abstract_class_error
      \/ interval_and_at depth a b = Raise RecursionError).
Proof.
  split; [|apply interval_and_at_raises].
  intros c. destruct (interval_and_at_raises depth a b) as [-> | ->]; discriminate.
Qed.

Lemma interval_and_bounded_comm (a b : Interval) :
  bounded a = true -> bounded b = true ->
  interval_and a b = interval_and b a.
Proof.
  intros Ha Hb. unfold interval_and, recursion_limit.
  rewrite !(interval_and_at_S 999), (interval_eq_sym b a).
  destruct (comes_before_cases a b Ha Hb) as [(E & H1 & H2)|[(E & H1 & H2)|(E & H1 & H2)]];
    rewrite ?E, ?H1, ?H2.
  - reflexivity.
  - rewrite interval_and_at_S, E, H1. reflexivity.
  - rewrite interval_and_at_S, (interval_eq_sym b a), E, H2. reflexivity.
Qed.

(** X14. On intervals whose bounds are values of the domain [&] does not
    depend on the order of its operands. *)
Theorem intersection_commutative (a b : Interval) :
  bounded a = true -> bounded b = true ->
  interval_and a b = interval_and b a.
Proof. apply interval_and_bounded_comm. Qed.

Lemma interval_and_bounded_raises (a b : Interval) :
  bounded a = true -> bounded b = true ->
  interval_and a b = Raise abstract_class_error.
Proof.
  intros Ha Hb.
  assert (Hcases : forall x y, bounded x = true -> bounded y = true ->
            comes_before x y = true ->
            interval_and_at 999 x y = Raise abstract_class_error).
  { intros x y Hx Hy Hc. rewrite (interval_and_at_S 998), Hc.
    destruct (interval_eq x y); [reflexivity|].
    rewrite overlaps_bounded by assumption. simpl.
    case_ifs; reflexivity. }
  unfold interval_and, recursion_limit. rewrite (interval_and_at_S 999).
  destruct (comes_before_cases a b Ha Hb) as [(E & H1 & H2)|[(E & H1 & H2)|(E & H1 & H2)]];
    rewrite E, ?H1.
  - reflexivity.
  - rewrite overlaps_bounded by assumption. simpl. case_ifs; reflexivity.
  - apply Hcases; assumption.
Qed.

(** X15. [a & b] raises [TypeError] for every two intervals whose bounds
    are values of the domain, whether they overlap or not: for operands
    that do not overlap the result would be [Interval.none()], and that
    call raises as the others do. *)
Theorem intersection_of_disjoint_raises (a b : Interval) :
  bounded a = true -> bounded b = true ->
  overlaps a b = Ok false ->
  interval_and a b = Raise abstract_class_error.
Proof. intros Ha Hb _. apply interval_and_bounded_raises; assumption. Qed.

(** *** Comparisons of sets *)

Lemma __contains___run (self : loc) (obj : item) (s : store) :
  __contains__ self obj s = (contains_loop (default [] (s !! self)) obj, s).
Proof. reflexivity. Qed.

Lemma le_loop_run (ivs : list Interval) (other : loc) (s : store) :
  le_loop ivs other s = (Ok (each_contained ivs (default [] (s !! other))), s).
Proof.
  induction ivs as [|i rest IH]; [reflexivity|].
  simpl. unfold bind. rewrite __contains___run, contains_loop_interval.
  destruct (existsb _ _); simpl; [exact IH | reflexivity].
Qed.

Lemma ge_loop_run (ivs : list Interval) (self : loc) (s : store) :
  ge_loop ivs self s = (Ok (each_contained ivs (default [] (s !! self))), s).
Proof.
  induction ivs as [|i rest IH]; [reflexivity|].
  simpl. unfold bind. rewrite __contains___run, contains_loop_interval.
  destruct (existsb _ _); simpl; [exact IH | reflexivity].
Qed.

Lemma __le___run (self other : loc) (s : store) :
  __le__ self other s
  = (Ok (each_contained (default [] (s !! self)) (default [] (s !! other))), s).
Proof. unfold __le__, bind, get_intervals. apply le_loop_run. Qed.

Lemma __ge___run (self other : loc) (s : store) :
  __ge__ self other s
  = (Ok (each_contained (default [] (s !! other)) (default [] (s !! self))), s).
Proof. unfold __ge__, bind, get_intervals. apply ge_loop_run. Qed.

Lemma __eq___run (self other : loc) (s : store) :
  __eq__ self other s
  = (Ok (each_contained (default [] (s !! self)) (default [] (s !! other))
         && each_contained (default [] (s !! other)) (default [] (s !! self))), s).
Proof.
  unfold __eq__, issubset, bind. rewrite __le___run.
  destruct (each_contained _ _); simpl; [apply __le___run | reflexivity].
Qed.

(** X16. Superset and subset are dual: [a >= b] is [b <= a], and
    [a.issuperset(b)] is [b.issubset(a)], on every store. *)
Theorem superset_subset_duality (a b : loc) (s : store) :
  __ge__ a b s = __le__ b a s /\ issuperset a b s = issubset b a s.
Proof.
  unfold issuperset, issubset. rewrite __ge___run, __le___run. split; reflexivity.
Qed.

(** X17. The comparisons and the membership test read the sets and leave
    every object of the store as it was; the comparisons of two sets never
    raise. *)
Theorem comparisons_read_only (a b : loc) (obj : item) (s : store) :
  (__contains__ a obj s).2 = s
  /\ (__len__ a s).2 = s
  /\ forall op : loc -> loc -> M bool,
       In op [__le__; __ge__; __eq__; __ne__; __lt__; __gt__] ->
       exists c, op a b s = (Ok c, s).
Proof.
  repeat split. intros op Hop. simpl in Hop.
  destruct Hop as [<-|[<-|[<-|[<-|[<-|[<-|[]]]]]]].
  - rewrite __le___run. eauto.
  - rewrite __ge___run. eauto.
  - rewrite __eq___run. eauto.
  - unfold __ne__, bind. rewrite __eq___run. simpl. eauto.
  - unfold __lt__, bind. rewrite __le___run.
    destruct (each_contained _ _); simpl; [|eauto].
    rewrite __eq___run. simpl. eauto.
  - unfold __gt__, bind. rewrite __ge___run.
    destruct (each_contained _ _); simpl; [|eauto].
    rewrite __eq___run. simpl. eauto.
Qed.

(** X18. No set is a strict subset or a strict superset of itself:
    [s < s] and [s > s] are [False]. *)
Theorem strict_subset_irreflexive (a : loc) (s : store) :
  __lt__ a a s = (Ok false, s) /\ __gt__ a a s = (Ok false, s).
Proof.
  unfold __lt__, __gt__, bind. rewrite __le___run, __ge___run.
  destruct (each_contained _ _) eqn:E; simpl; [|split; reflexivity].
  rewrite __eq___run, E. split; reflexivity.
Qed.

Lemma contains_interval_refl (i : Interval) :
  bounded i = true -> contains_interval i i = true.
Proof.
  intros Hi. destruct (bounded_inv i Hi) as (l & u & Hl & Hu).
  unfold contains_interval. rewrite Hl, Hu. simpl.
  rewrite !carrier_lt_irrefl, !carrier_eq_refl.
  destruct (lower_closed i), (upper_closed i); reflexivity.
Qed.

(** X19. A set all of whose stored intervals have their bounds in the
    domain equals itself: [s == s] is [True] and [s != s] is [False]. *)
Theorem set_equals_itself (a : loc) (s : store) :
  (forall i, In i (default [] (s !! a)) -> bounded i = true) ->
  __eq__ a a s = (Ok true, s) /\ __ne__ a a s = (Ok false, s).
Proof.
  intros Hb.
  assert (E : each_contained (default [] (s !! a)) (default [] (s !! a)) = true).
  { unfold each_contained. apply forallb_forall. intros i Hi.
    apply existsb_exists. exists i. split; [exact Hi|].
    apply contains_interval_refl. apply Hb. exact Hi. }
  unfold __ne__, bind. rewrite __eq___run, E. split; reflexivity.
Qed.

(** X20. A set that stores an interval with an end at [-Inf] or at [Inf]
    is a subset of no set, and it is not equal to itself: no interval
    contains an interval with an unbounded end. *)
Theorem unbounded_member_breaks_subset (a b : loc) (s : store) (i : Interval) :
  In i (default [] (s !! a)) ->
  lower_bound i = Smallest \/ upper_bound i = Largest ->
  __le__ a b s = (Ok false, s) /\ __eq__ a a s = (Ok false, s).
Proof.
  intros Hi Hu.
  assert (E : forall ys, each_contained (default [] (s !! a)) ys = false).
  { intros ys. unfold each_contained.
    destruct (forallb _ _) eqn:F; [|reflexivity].
    rewrite forallb_forall in F. specialize (F i Hi).
    apply existsb_exists in F. destruct F as (r & _ & Hr).
    rewrite (unbounded_not_contained r i Hu) in Hr. discriminate. }
  rewrite __le___run, __eq___run, !E. split; reflexivity.
Qed.

(** *** Insertion *)

Lemma _add_run (self : loc) (obj : item) (s : store) :
  _add self obj s
  = match (match obj with AnInterval i => Ok i | AValue v => equal_to v end) with
    | Raise e => (Raise e, s)
    | Ok r =>
      match add_loop (default [] (s !! self)) r [] with
      | Raise e => (Raise e, s)
      | Ok (r', newIntervals) =>
        (Ok tt, <[self := sort (newIntervals ++ [r'])]> s)
      end
    end.
Proof.
  unfold _add, bind, lift, get_intervals, set_intervals, truth.
  destruct (match obj with AnInterval i => Ok i | AValue v => equal_to v end)
    as [r|e]; [|reflexivity].
  destruct (add_loop _ r []) as [[r' new]|e]; reflexivity.
Qed.

Lemma insert_sorted_In (x y : Interval) (l : list Interval) :
  In x (insert_sorted y l) <-> x = y \/ In x l.
Proof.
  induction l as [|z l IH]; simpl; [intuition congruence|].
  destruct (comes_before y z); simpl; rewrite ?IH; intuition congruence.
Qed.

Lemma insert_sorted_length (y : Interval) (l : list Interval) :
  length (insert_sorted y l) = S (length l).
Proof.
  induction l as [|z l IH]; simpl; [reflexivity|].
  destruct (comes_before y z); simpl; rewrite ?IH; reflexivity.
Qed.

Lemma sort_In (x : Interval) (l : list Interval) : In x (sort l) <-> In x l.
Proof.
  unfold sort.
  assert (G : forall acc, In x (foldl (fun acc y => insert_sorted y acc) acc l)
                          <-> In x acc \/ In x l).
  { induction l as [|y l IH]; intros acc; simpl; [tauto|].
    rewrite IH, insert_sorted_In. intuition congruence. }
  rewrite G. simpl. tauto.
Qed.

Lemma sort_length (l : list Interval) : length (sort l) = length l.
Proof.
  unfold sort.
  assert (G : forall acc, length (foldl (fun acc y => insert_sorted y acc) acc l)
                          = length acc + length l).
  { induction l as [|y l IH]; intros acc; simpl; [lia|].
    rewrite IH, insert_sorted_length. lia. }
  rewrite G. reflexivity.
Qed.

Lemma add_loop_length ivs r acc r' newIntervals :
  add_loop ivs r acc = Ok (r', newIntervals) ->
  length newIntervals <= length acc + length ivs.
Proof.
  revert r acc. induction ivs as [|i rest IH]; intros r acc H; simpl in *.
  - injection H as _ <-. lia.
  - destruct (or_else (overlaps i r) (adjacent_to i r)) as [[|]|e];
      simpl in H; try discriminate.
    + destruct (join r i) as [r2|e]; simpl in H; [|discriminate].
      apply IH in H. lia.
    + apply IH in H. rewrite length_app in H. simpl in H. lia.
Qed.

(** Containment of one bound in another, as a proposition. *)
Lemma inside_lower_iff (ls lo : carrier) (cs co : bool) :
  (if py_lt (Value lo) (Value ls) then false
   else if py_eq (Value lo) (Value ls) then implb co cs else true) = true
  <-> carrier_lt ls lo = true \/ (lo = ls /\ implb co cs = true).
Proof.
  simpl.
  destruct (compare_carrier lo ls) as [E H1 H2 H3 H4|H1 H2 H3 H4|H1 H2 H3 H4];
    rewrite ?H1, ?H2, ?H3, ?H4.
  - subst. simpl. intuition congruence.
  - split; [discriminate|]. intros [H|[-> _]]; [congruence|].
    rewrite carrier_lt_irrefl in H3. discriminate.
  - tauto.
Qed.

Lemma inside_upper_iff (us uo : carrier) (cs co : bool) :
  (if py_gt (Value uo) (Value us) then false
   else if py_eq (Value uo) (Value us) then implb co cs else true) = true
  <-> carrier_lt uo us = true \/ (uo = us /\ implb co cs = true).
Proof.
  simpl.
  destruct (compare_carrier uo us) as [E H1 H2 H3 H4|H1 H2 H3 H4|H1 H2 H3 H4];
    rewrite ?H1, ?H2, ?H3, ?H4.
  - subst. simpl. intuition congruence.
  - tauto.
  - split; [discriminate|]. intros [H|[-> _]]; [congruence|].
    rewrite carrier_lt_irrefl in H4. discriminate.
Qed.

Lemma implb_trans (a b c : bool) :
  implb a b = true -> implb b c = true -> implb a c = true.
Proof. destruct a, b, c; auto. Qed.

Lemma contains_interval_trans (a b c : Interval) :
  transitive_order ->
  bounded a = true -> bounded b = true -> bounded c = true ->
  contains_interval c b = true -> contains_interval b a = true ->
  contains_interval c a = true.
Proof.
  intros Ht Ha Hb Hc.
  destruct (bounded_inv a Ha) as (la & ua & Hla & Hua).
  destruct (bounded_inv b Hb) as (lb & ub & Hlb & Hub).
  destruct (bounded_inv c Hc) as (lc & uc & Hlc & Huc).
  unfold contains_interval. rewrite Hla, Hua, Hlb, Hub, Hlc, Huc.
  rewrite !andb_true_iff, !inside_lower_iff, !inside_upper_iff.
  intros [[L1|[-> L1]] [U1|[-> U1]]] [[L2|[-> L2]] [U2|[-> U2]]];
    split; eauto using implb_trans.
Qed.

Lemma add_loop_contains ivs r acc r' newIntervals r0 :
  transitive_order ->
  bounded r0 = true -> bounded r = true -> contains_interval r r0 = true ->
  add_loop ivs r acc = Ok (r', newIntervals) ->
  contains_interval r' r0 = true.
Proof.
  intros Ht H0. revert r acc.
  induction ivs as [|i rest IH]; intros r acc Hr Hc H; simpl in H.
  - injection H as <- _. exact Hc.
  - destruct (or_else (overlaps i r) (adjacent_to i r)) as [[|]|e];
      simpl in H; try discriminate.
    + destruct (join r i) as [r2|e] eqn:J; simpl in H; [|discriminate].
      exfalso. rewrite join_outcome in J.
      destruct (or_else (overlaps r i) (adjacent_to r i)) as [[|]|e];
        discriminate.
    + apply (IH r (acc ++ [i])); auto.
Qed.

(** X21. [add] is all or nothing: when it raises, the store is what it
    was. *)
Theorem add_raises_unchanged (self : loc) (obj : item) (s : store) (e : exn) :
  (add self obj s).1 = Raise e -> (add self obj s).2 = s.
Proof.
  unfold add. rewrite _add_run.
  destruct (match obj with AnInterval i => Ok i | AValue v => equal_to v end)
    as [r|e0]; [|reflexivity].
  destruct (add_loop _ r []) as [[r' new]|e0]; [discriminate | reflexivity].
Qed.

(** X22. Insert, then look up: after [add(r)] has returned, for an
    interval [r] whose bounds are values of a transitively ordered domain,
    [r in s] is [True]. *)
Theorem added_interval_is_member (self : loc) (r : Interval) (s : store) :
  transitive_order -> bounded r = true -> self < length s ->
  (add self (AnInterval r) s).1 = Ok tt ->
  (__contains__ self (AnInterval r) (add self (AnInterval r) s).2).1 = Ok true.
Proof.
  intros Ht Hr Hself. unfold add. rewrite _add_run.
  destruct (add_loop _ r []) as [[r' new]|e] eqn:L; [|discriminate].
  intros _. rewrite __contains___run. cbn [fst snd].
  rewrite list_lookup_insert_eq by exact Hself. cbn [default from_option].
  rewrite contains_loop_interval. f_equal.
  apply existsb_exists. exists r'. split.
  - apply sort_In, in_or_app. right. left. reflexivity.
  - apply (add_loop_contains (default [] (s !! self)) r [] r' new r Ht Hr Hr);
      [|exact L].
    apply contains_interval_refl. exact Hr.
Qed.

(** X23. An [add] that returns leaves the set with at least one interval
    and with at most one more than it had. *)
Theorem add_grows_by_at_most_one (self : loc) (obj : item) (s : store) :
  self < length s ->
  (add self obj s).1 = Ok tt ->
  1 <= length (default [] ((add self obj s).2 !! self))
       <= S (length (default [] (s !! self))).
Proof.
  intros Hself. unfold add. rewrite _add_run.
  destruct (match obj with AnInterval i => Ok i | AValue v => equal_to v end)
    as [r|e]; [|discriminate].
  destruct (add_loop _ r []) as [[r' new]|e] eqn:L; [|discriminate].
  intros _. simpl. rewrite list_lookup_insert_eq by exact Hself. simpl.
  rewrite sort_length, length_app. simpl.
  apply add_loop_length in L. simpl in L. lia.
Qed.

(** X24. A set built from one interval stores that interval as it is
    given, empty or not: nothing is discarded on insertion. *)
Theorem single_interval_stored (i : Interval) (s : store) :
  IntervalSet [AnInterval i] s = (Ok (length s), s ++ [[i]]).
Proof.
  unfold IntervalSet, bind, alloc. simpl. unfold bind. rewrite _add_run.
  rewrite lookup_app_r by lia. rewrite Nat.sub_diag. simpl.
  unfold ret. f_equal.
  rewrite insert_app_r_alt by lia. rewrite Nat.sub_diag. reflexivity.
Qed.

(** *** The class methods and the complement *)

(** X25. The class methods [IntervalSet.less_than],
    [less_than_or_equal_to], [greater_than], [greater_than_or_equal_to],
    [not_equal_to], [between] and [all] raise [TypeError] on every
    argument and create no object: each builds its intervals first, by a
    class method of [Interval] that instantiates the class. *)
Theorem set_constructors_raise (n m : bound) (closed : bool) (s : store) :
  IntervalSet_less_than n s = (Raise abstract_class_error, s)
  /\ IntervalSet_less_than_or_equal_to n s = (Raise abstract_class_error, s)
  /\ IntervalSet_greater_than n s = (Raise abstract_class_error, s)
  /\ IntervalSet_greater_than_or_equal_to n s = (Raise abstract_class_error, s)
  /\ IntervalSet_not_equal_to n s = (Raise abstract_class_error, s)
  /\ IntervalSet_between n m closed s = (Raise abstract_class_error, s)
  /\ IntervalSet_all s = (Raise abstract_class_error, s).
Proof. repeat split. Qed.

(** X26. The complement [~s] raises [TypeError] for every set and changes
    nothing: it starts from [IntervalSet.all()], which starts from
    [Interval.all()]. *)
Theorem complement_raises (self : loc) (s : store) :
  __invert__ self s = (Raise abstract_class_error, s).
Proof. reflexivity. Qed.

(** *** [pop] and the in-place operations *)

(** X27. [pop] on a set with no interval raises [KeyError] and changes
    nothing; on a set whose list ends with [i] it removes [i] and returns
    it, as the bare lower bound when [i.lower_bound == i.upper_bound]
    (whatever the closures of [i]). *)
Theorem pop_takes_last (self : loc) (s : store) :
  (default [] (s !! self) = [] -> pop self s = (Raise KeyError, s))
  /\ (forall front i,
        default [] (s !! self) = front ++ [i] ->
        pop self s
        = (Ok (if py_eq (lower_bound i) (upper_bound i)
               then AValue (lower_bound i) else AnInterval i),
           <[self := front]> s)).
Proof.
  unfold pop, bind, get_intervals, set_intervals, ret, raise. split.
  - intros ->. reflexivity.
  - intros front i ->. rewrite last_snoc, removelast_last. reflexivity.
Qed.

Lemma frame_bind {A B} (n l : nat) (m : M A) (k : A -> M B) (Q : A -> Prop) :
  only_fresh n m Q -> l < n ->
  (forall a s1, n <= length s1 -> (k a s1).2 !! l = s1 !! l) ->
  forall s : store, n <= length s -> ((letm a := m in k a) s).2 !! l = s !! l.
Proof.
  intros Hm Hl Hk s Hs. destruct (Hm s Hs) as (Hlen & Hkeep & _).
  unfold bind. destruct (m s) as [[a|e] s1]; simpl in *.
  - rewrite Hk by exact Hlen. apply Hkeep. exact Hl.
  - apply Hkeep. exact Hl.
Qed.

Lemma take_list_frame (self l u : loc) (s1 : store) :
  l <> self ->
  ((letm ivs := get_intervals u in set_intervals self ivs) s1).2 !! l = s1 !! l.
Proof.
  intros Hne. unfold bind, get_intervals, set_intervals. simpl.
  apply list_lookup_insert_ne. auto.
Qed.

Lemma as_set_only_fresh n (other : operand) :
  only_fresh n (as_set other) (fun _ => True).
Proof.
  destruct other as [o|items]; simpl.
  - apply only_fresh_ret. exact I.
  - eapply only_fresh_weaken; [apply IntervalSet_only_fresh | auto].
Qed.

(** X28. The operations [update], [difference_update],
    [intersection_update], [symmetric_difference_update], [discard],
    [remove], [add] and [clear] assign a list to [self.intervals] and
    change no list in place: whether they return or raise, every object
    but [self] keeps its list, the other operand included. *)
Theorem assigning_operations_change_only_self (self l : loc) (s : store) :
  l < length s -> l <> self ->
  (forall (op : loc -> operand -> M unit) (other : operand),
      In op [update; difference_update; intersection_update;
             symmetric_difference_update] ->
      (op self other s).2 !! l = s !! l)
  /\ (forall obj : item,
        (discard self obj s).2 !! l = s !! l
        /\ (remove self obj s).2 !! l = s !! l
        /\ (add self obj s).2 !! l = s !! l)
  /\ (clear self s).2 !! l = s !! l.
Proof.
  intros Hl Hne.
  assert (Hdiscard : forall obj, (discard self obj s).2 !! l = s !! l).
  { intros obj. unfold discard.
    eapply (frame_bind (length s)); [apply IntervalSet_only_fresh|exact Hl| |lia].
    intros o s1 Hs1.
    eapply (frame_bind (length s)); [apply __sub___only_fresh|exact Hl| |exact Hs1].
    intros diff s2 _. apply take_list_frame. exact Hne. }
  repeat split.
  - intros op other Hop. simpl in Hop.
    destruct Hop as [<-|[<-|[<-|[<-|[]]]]];
      unfold update, difference_update, intersection_update,
        symmetric_difference_update, union, difference, intersection,
        symmetric_difference;
      (eapply (frame_bind (length s));
       [ eapply only_fresh_bind; [apply as_set_only_fresh|]; intros o _;
         first [ apply __or___only_fresh | apply __sub___only_fresh
               | apply __and___only_fresh | apply __xor___only_fresh ]
       | exact Hl
       | intros a s1 _; apply take_list_frame; exact Hne
       | lia ]).
  - apply Hdiscard.
  - rewrite remove_unfold.
    destruct (contains_loop _ obj) as [[|]|e]; simpl; auto.
  - unfold add. rewrite _add_run.
    destruct (match obj with AnInterval i => Ok i | AValue v => equal_to v end)
      as [r|e]; [|reflexivity].
    destruct (add_loop _ r []) as [[r' new]|e]; simpl; [|reflexivity].
    apply list_lookup_insert_ne. auto.
  - unfold clear, set_intervals. simpl. apply list_lookup_insert_ne. auto.
Qed.

(** *** Canonical lists *)

Lemma pairwise_app_cons {A} (p : A -> A -> bool) (l1 : list A) (x : A) (l2 : list A) :
  pairwise p (l1 ++ x :: l2) = true ->
  pairwise p (l1 ++ [x]) = true /\ (forall y, In y l1 -> p y x = true).
Proof.
  induction l1 as [|z l1 IH]; simpl.
  - intros _. split; [reflexivity | intros y []].
  - rewrite !andb_true_iff, !forallb_app. simpl. rewrite !andb_true_iff.
    intros [(F1 & Hzx & F2) Hrest]. destruct (IH Hrest) as [P Q].
    repeat split; auto.
    intros y [<-|Hy]; auto.
Qed.

Lemma sorted_by_pairwise {A} (lt : A -> A -> bool) (l : list A) :
  sorted_by lt l = pairwise lt l.
Proof. induction l as [|x l IH]; simpl; [|rewrite IH]; reflexivity. Qed.

Lemma insert_sorted_last (x : Interval) (l : list Interval) :
  (forall y, In y l -> comes_before x y = false) ->
  insert_sorted x l = l ++ [x].
Proof.
  induction l as [|z l IH]; intros H; simpl; [reflexivity|].
  rewrite (H z) by (left; reflexivity).
  rewrite IH; [reflexivity|]. intros y Hy. apply H. right. exact Hy.
Qed.

Lemma sort_snoc (l : list Interval) (x : Interval) :
  sort (l ++ [x]) = insert_sorted x (sort l).
Proof. unfold sort. rewrite foldl_app. reflexivity. Qed.

Lemma comes_before_asym (a b : Interval) :
  bounded a = true -> bounded b = true ->
  comes_before a b = true -> comes_before b a = false.
Proof.
  intros Ha Hb H.
  destruct (comes_before_cases a b Ha Hb) as [(_ & H1 & _)|[(_ & _ & H2)|(_ & H1 & _)]];
    congruence.
Qed.

Lemma sort_sorted (l : list Interval) :
  (forall i, In i l -> bounded i = true) ->
  sorted_by comes_before l = true -> sort l = l.
Proof.
  induction l as [|x l IH] using rev_ind; intros Hb Hs; [reflexivity|].
  rewrite sorted_by_pairwise in Hs.
  assert (Hs' : pairwise comes_before (l ++ [x]) = true) by exact Hs.
  apply pairwise_app_cons in Hs. destruct Hs as [_ Hlt].
  assert (Hl : pairwise comes_before l = true).
  { clear -Hs'. induction l as [|z l IH]; [reflexivity|]. simpl in *.
    rewrite forallb_app in Hs'. rewrite !andb_true_iff in *.
    destruct Hs' as [[F _] R]. auto. }
  rewrite sort_snoc, IH.
  - apply insert_sorted_last. intros y Hy.
    apply comes_before_asym; [apply Hb|apply Hb|apply Hlt]; auto using in_or_app.
    apply in_or_app. right. left. reflexivity.
  - intros i Hi. apply Hb. apply in_or_app. left. exact Hi.
  - rewrite sorted_by_pairwise. exact Hl.
Qed.

Lemma add_loop_apart (ivs : list Interval) (r : Interval) (acc : list Interval) :
  (forall i, In i ivs -> apart i r = true) ->
  add_loop ivs r acc = Ok (r, acc ++ ivs).
Proof.
  revert acc. induction ivs as [|i rest IH]; intros acc H; simpl.
  - rewrite app_nil_r. reflexivity.
  - assert (Hi : apart i r = true) by (apply H; left; reflexivity).
    unfold apart in Hi. unfold or_else.
    destruct (overlaps i r) as [[|]|e]; try discriminate.
    destruct (adjacent_to i r) as [[|]|e]; try discriminate. simpl.
    rewrite IH by (intros j Hj; apply H; right; exact Hj).
    rewrite <- app_assoc. reflexivity.
Qed.

Lemma build_canonical (n : loc) (l2 l1 : list Interval) (s : store) :
  n = length s ->
  (forall i, In i (l1 ++ l2) -> bounded i = true) ->
  sorted_by comes_before (l1 ++ l2) = true ->
  pairwise apart (l1 ++ l2) = true ->
  for_each (map AnInterval l2) (_add n) (s ++ [l1]) = (Ok tt, s ++ [l1 ++ l2]).
Proof.
  intros ->. revert l1. induction l2 as [|x l2 IH]; intros l1 Hb Hs Hp; simpl.
  - rewrite app_nil_r. reflexivity.
  - rewrite sorted_by_pairwise in Hs.
    destruct (pairwise_app_cons _ _ _ _ Hs) as [Hs1 _].
    destruct (pairwise_app_cons _ _ _ _ Hp) as [_ Hap].
    unfold bind. rewrite _add_run.
    rewrite lookup_app_r by lia. rewrite Nat.sub_diag. simpl.
    rewrite add_loop_apart by exact Hap. simpl.
    rewrite sort_sorted.
    + rewrite insert_app_r_alt by lia. rewrite Nat.sub_diag. simpl.
      replace (l1 ++ x :: l2) with ((l1 ++ [x]) ++ l2)
        by (rewrite <- app_assoc; reflexivity).
      apply IH; rewrite <- ?app_assoc; simpl; auto.
    + intros i Hi. apply Hb. apply in_app_or in Hi. apply in_or_app.
      destruct Hi as [Hi|[<-|[]]]; [left; exact Hi | right; left; reflexivity].
    + rewrite sorted_by_pairwise. exact Hs1.
Qed.

Lemma copy_of_canonical_rebuild (a : loc) (s : store) (l : list Interval) :
  s !! a = Some l ->
  (forall i, In i l -> bounded i = true) ->
  sorted_by comes_before l = true ->
  pairwise apart l = true ->
  IntervalSet_of a s = (Ok (length s), s ++ [l]).
Proof.
  intros Hl Hb Hs Hp.
  unfold IntervalSet_of, IntervalSet, bind, get_intervals, alloc, ret.
  rewrite Hl. simpl.
  rewrite (build_canonical (length s) l [] s); auto.
Qed.

(** X29. Building a set from a set in canonical form (sorted, members
    pairwise neither overlapping nor adjacent) whose intervals have their
    bounds in the domain gives a new object with the same list: nothing is
    merged and nothing is reordered. *)
Theorem copy_of_canonical_set (a : loc) (s : store) :
  canonical (default [] (s !! a)) = true ->
  (forall i, In i (default [] (s !! a)) -> bounded i = true) ->
  IntervalSet_of a s = (Ok (length s), s ++ [default [] (s !! a)]).
Proof.
  intros Hc Hb. unfold canonical in Hc. rewrite !andb_true_iff in Hc.
  destruct Hc as [[Hs Hp] _].
  unfold IntervalSet_of, IntervalSet, bind, get_intervals, alloc, ret.
  rewrite (build_canonical (length s) (default [] (s !! a)) [] s); auto.
Qed.

(** *** Difference of a set with itself *)

Lemma for_each_agree {X} (xs : list X) (f g : X -> M unit) (s : store) :
  (forall x s1, In x xs -> f x s1 = g x s1) ->
  for_each xs f s = for_each xs g s.
Proof.
  revert s. induction xs as [|x xs IH]; intros s H; [reflexivity|].
  simpl. unfold bind. rewrite (H x s) by (left; reflexivity).
  destruct (g x s) as [[[]|e] s1]; [|reflexivity].
  apply IH. intros y s2 Hy. apply H. right. exact Hy.
Qed.

Lemma for_each_map {X Y} (h : X -> Y) (xs : list X) (f : Y -> M unit) (s : store) :
  for_each (map h xs) f s = for_each xs (fun x => f (h x)) s.
Proof.
  revert s. induction xs as [|x xs IH]; intros s; [reflexivity|].
  simpl. unfold bind. destruct (f (h x) s) as [[[]|e] s1]; [apply IH | reflexivity].
Qed.

Lemma pairwise_tail {A} (p : A -> A -> bool) (x : A) (l : list A) :
  pairwise p (x :: l) = true ->
  pairwise p l = true /\ (forall y, In y l -> p x y = true).
Proof.
  simpl. rewrite andb_true_iff, forallb_forall. tauto.
Qed.

Lemma overlaps_refl_bounded (j : Interval) :
  bounded j = true -> overlaps j j = Ok true.
Proof.
  intros Hj. rewrite overlaps_bounded by exact Hj.
  rewrite interval_eq_refl. reflexivity.
Qed.

Lemma sub_body_same (temp : loc) (j : Interval) (s : store) :
  bounded j = true -> sub_body temp j j s = (Ok tt, s).
Proof.
  intros Hj. unfold sub_body, bind, lift.
  rewrite overlaps_refl_bounded by exact Hj.
  rewrite contains_interval_refl by exact Hj. reflexivity.
Qed.

Lemma sub_body_apart (temp : loc) (j i : Interval) (s : store) :
  bounded i = true -> bounded j = true -> apart j i = true ->
  sub_body temp j i s = _add temp (AnInterval i) s.
Proof.
  intros Hi Hj Hap. unfold sub_body, bind, lift.
  destruct (touching_bounded_sym i j Hi Hj) as [-> _].
  unfold apart in Hap.
  destruct (overlaps j i) as [[|]|e]; try discriminate. reflexivity.
Qed.

Lemma for_each_cons {X} (x : X) (xs : list X) (f : X -> M unit) (s : store) :
  for_each (x :: xs) f s
  = match f x s with
    | (Ok _, s1) => for_each xs f s1
    | (Raise e, s1) => (Raise e, s1)
    end.
Proof. reflexivity. Qed.

Lemma sub_loop_cons (j : Interval) (rest : list Interval) (r : loc) (s : store) :
  sub_loop (j :: rest) r s
  = match for_each (default [] ((s ++ [[]]) !! r)) (sub_body (length s) j)
                   (s ++ [[]]) with
    | (Ok _, s1) => sub_loop rest (length s) s1
    | (Raise e, s1) => (Raise e, s1)
    end.
Proof. reflexivity. Qed.

Lemma sub_loop_canonical (l : list Interval) (r : loc) (s : store) :
  (forall i, In i l -> bounded i = true) ->
  sorted_by comes_before l = true ->
  pairwise apart l = true ->
  s !! r = Some l ->
  exists c s', sub_loop l r s = (Ok c, s') /\ s' !! c = Some [].
Proof.
  revert r s. induction l as [|j rest IH]; intros r s Hb Hs Hp Hr.
  - exists r, s. split; [reflexivity | exact Hr].
  - rewrite sorted_by_pairwise in Hs.
    destruct (pairwise_tail _ _ _ Hs) as [Hs' _].
    destruct (pairwise_tail _ _ _ Hp) as [Hp' Hap].
    assert (Hr' : (s ++ [[]]) !! r = Some (j :: rest)).
    { rewrite lookup_app_l; [exact Hr|]. apply lookup_lt_Some in Hr. exact Hr. }
    rewrite sub_loop_cons, Hr'.
    change (default [] (Some (j :: rest))) with (j :: rest).
    rewrite for_each_cons.
    rewrite sub_body_same by (apply Hb; left; reflexivity).
    rewrite (for_each_agree rest _ (fun i => _add (length s) (AnInterval i))).
    + rewrite <- (for_each_map AnInterval rest (_add (length s))).
      assert (Hb' : forall i, In i rest -> bounded i = true)
        by (intros i Hi; apply Hb; right; exact Hi).
      assert (Hs2 : sorted_by comes_before rest = true)
        by (rewrite sorted_by_pairwise; exact Hs').
      rewrite (build_canonical (length s) rest [] s eq_refl Hb' Hs2 Hp').
      apply IH; auto.
      rewrite lookup_app_r by lia. rewrite Nat.sub_diag. reflexivity.
    + intros i s1 Hi. apply sub_body_apart;
        [ apply Hb; right; exact Hi | apply Hb; left; reflexivity
        | apply Hap; exact Hi ].
Qed.

(** X30. For a set in canonical form whose intervals have their bounds in
    the domain, [s - s] returns a set with no interval. *)
Theorem difference_with_itself_empty (a : loc) (s : store) :
  a < length s ->
  canonical (default [] (s !! a)) = true ->
  (forall i, In i (default [] (s !! a)) -> bounded i = true) ->
  exists c s', __sub__ a a s = (Ok c, s') /\ s' !! c = Some [].
Proof.
  intros Ha Hc Hb.
  destruct (lookup_lt_is_Some_2 s a Ha) as [l Hl].
  rewrite Hl in Hc, Hb. simpl in Hc, Hb.
  assert (Hcopy := copy_of_canonical_rebuild).
  unfold canonical in Hc. rewrite !andb_true_iff in Hc.
  destruct Hc as [[Hs Hp] Hn].
  unfold __sub__. unfold bind at 1.
  rewrite (Hcopy a s l Hl Hb Hs Hp).
  unfold bind at 1. unfold get_intervals at 1.
  rewrite lookup_app_l by exact Ha. rewrite Hl. simpl.
  destruct (sub_loop_canonical l (length s) (s ++ [l]) Hb Hs Hp)
    as (c & s1 & Hrun & Hempty).
  { rewrite lookup_app_r by lia. rewrite Nat.sub_diag. reflexivity. }
  unfold bind at 1. rewrite Hrun.
  exists (length s1), (s1 ++ [[]]). split.
  - unfold IntervalSet_of, IntervalSet, bind, get_intervals, alloc, ret.
    rewrite Hempty. reflexivity.
  - rewrite lookup_app_r by lia. rewrite Nat.sub_diag. reflexivity.
Qed.

End Methods.

(** ** The claims on the concrete domain *)

Local Open Scope Z_scope.

(** The body of [__init__] returns [iv l lc u uc] when asked for it. *)
Lemma iv_constructed (l u : Z) (lc uc : bool) :
  l <= u ->
  init (@Value IntKey l) (@Value IntKey u) false lc uc = Ok (iv l lc u uc).
Proof.
  intros Hle. unfold init, iv. simpl.
  replace (u <? l) with false by (symmetry; apply Z.ltb_ge; exact Hle).
  reflexivity.
Qed.

(** C2. [IntervalSet([e])] for the empty interval [e = (5..5)] stores [e]:
    the test [if r:] that is to skip an empty interval is true of every
    interval, since the class has [__nonzero__] and no [__bool__].  The
    list [[e]] has an empty member. *)
Theorem empty_interval_is_stored :
  let e := iv 5 false 5 false in
  nonzero e = false
  /\ truth e = true
  /\ IntervalSet [AnInterval e] [] = (Ok 0%nat, [[e]])
  /\ canonical [e] = false.
Proof. vm_compute. repeat split. Qed.

(** C4. [[2..5]] overlaps [[4..8]] and is adjacent to [(5..9]]; [join]
    raises [TypeError] on both pairs, where it is to return [[2..8]] and
    [[2..9]]: it builds its result by [Interval(...)]. *)
Theorem join_overlapping_raises :
  let a := iv 2 true 5 true in
  let b := iv 4 true 8 true in
  let c := iv 5 false 9 true in
  overlaps a b = Ok true
  /\ join a b = Raise abstract_class_error
  /\ adjacent_to a c = Ok true
  /\ join a c = Raise abstract_class_error.
Proof. vm_compute. repeat split. Qed.

(** C5. For the set [s] that stores [[2..5]], [s | s] raises [TypeError]:
    the union adds [[2..5]] to a copy of [s], the interval overlaps its
    copy, and [_add] joins the two.  On the same set [s & s == s] and
    [s - s == IntervalSet.empty()] are [True]. *)
Theorem union_with_itself_raises :
  let s : list (list IntInterval) := [[iv 2 true 5 true]] in
  (__or__ 0%nat 0%nat s).1 = Raise abstract_class_error
  /\ ((letm i := __and__ 0%nat 0%nat in __eq__ i 0%nat) s).1 = Ok true
  /\ ((letm d := __sub__ 0%nat 0%nat in
       letm o := empty in
       __eq__ d o) s).1 = Ok true.
Proof. vm_compute. repeat split. Qed.

(** C6. [Interval(5, 2, lower_closed=False)] raises [TypeError], as every
    instantiation of [Interval] does; and the body of [__init__], were it
    to run on these arguments, raises [ValueError]: it rejects a reversed
    pair of bounds and swaps nothing. *)
Theorem reversed_bounds_rejected :
  new_Interval (@Value IntKey 5) (@Value IntKey 2)
               default_closed false default_upper_closed
  = Raise abstract_class_error
  /\ init (@Value IntKey 5) (@Value IntKey 2)
          default_closed false default_upper_closed
     = Raise (ValueError "Upper bound cannot be greater than lower bound.").
Proof. split; reflexivity. Qed.

(** C7, as the specification states it, fails on [[2..5)] and [[2..5]]:
    the fields are as the claim asks, and the interval with the open upper
    end does come before the closed one. *)
Lemma closed_upper_first_counterexample :
  let a := iv 2 true 5 false in
  let b := iv 2 true 5 true in
  lower_bound a = lower_bound b /\ lower_closed a = lower_closed b
  /\ upper_bound a = upper_bound b
  /\ upper_closed a = false /\ upper_closed b = true
  /\ comes_before a b = true /\ comes_before b a = false.
Proof. vm_compute. repeat split. Qed.

Lemma open_upper_comes_before_closed_witness :
  comes_before (iv 2 true 5 false) (iv 2 true 5 true) = true
  /\ comes_before (iv 2 true 5 true) (iv 2 true 5 false) = false
  /\ forall c : IntInterval, comes_before c c = false.
Proof.
  apply (@open_upper_comes_before_closed IntKey
           (iv 2 true 5 false) (iv 2 true 5 true) 2 5); reflexivity.
Defined.

(** C9. The set built from the interval [(8...)] stores it, and
    [remove((8...))] raises [KeyError] on that set: [Largest() > Largest()]
    is [True], so the stored interval does not pass for containing
    itself.  The set is left as it was. *)
Theorem remove_stored_interval_raises :
  let g := @mkInterval IntKey (@Value IntKey 8) false Largest false in
  let s : list (list IntInterval) := [[g]] in
  IntervalSet [AnInterval g] [] = (Ok 0%nat, s)
  /\ In g (default [] (s !! 0%nat))
  /\ contains_interval g g = false
  /\ remove 0%nat (AnInterval g) s = (Raise KeyError, s).
Proof. vm_compute. repeat split. left. reflexivity. Qed.

Lemma binary_operations_keep_operands_witness :
  let s : list (list IntInterval) :=
    [[iv 1 true 3 true]; [iv 5 true 6 true; iv 7 true 9 true]] in
  exists (c : nat) (s' : list (list IntInterval)),
    __xor__ 0%nat 1%nat s = (Ok c, s')
    /\ s' !! 0%nat = s !! 0%nat /\ s' !! 1%nat = s !! 1%nat.
Proof.
  intros s. eexists. eexists. split; [vm_compute; reflexivity|].
  eapply (@binary_operations_keep_operands IntKey s 0%nat 1%nat)
    with (op := __xor__).
  - repeat constructor.
  - repeat constructor.
  - simpl. auto.
  - vm_compute. reflexivity.
Defined.

(** ** The other methods on the concrete domain *)

Lemma IntKey_transitive : @transitive_order IntKey.
Proof.
  intros x y z. simpl. rewrite !Z.ltb_lt. lia.
Qed.

Lemma constructor_invariant_witness :
  let i := @mkInterval IntKey Smallest false (@Value IntKey 5) true in
  init Smallest (@Value IntKey 5) false false true = Ok i
  /\ isinstance_comparable (lower_bound i) = true
  /\ isinstance_comparable (upper_bound i) = true
  /\ py_lt (upper_bound i) (lower_bound i) = false
  /\ (lower_bound i = Smallest -> lower_closed i = false)
  /\ (upper_bound i = Largest -> upper_closed i = false).
Proof.
  intros i. split; [reflexivity|].
  apply (@constructor_invariant IntKey Smallest (@Value IntKey 5) false false true i).
  reflexivity.
Defined.

Lemma default_closed_interval_witness :
  let i := iv 2 true 5 true in
  init (@Value IntKey 2) (@Value IntKey 5) default_closed false false = Ok i
  /\ lower_closed i = true /\ upper_closed i = true /\ bounded i = true.
Proof.
  intros i. split; [reflexivity|].
  apply (@default_closed_interval IntKey (@Value IntKey 2) (@Value IntKey 5) false false i).
  reflexivity.
Defined.


Lemma comes_before_trichotomy_witness :
  let a := iv 2 true 5 false in
  let b := iv 2 true 5 true in
  (interval_eq a b = true /\ comes_before a b = false /\ comes_before b a = false)
  \/ (interval_eq a b = false /\ comes_before a b = true /\ comes_before b a = false)
  \/ (interval_eq a b = false /\ comes_before a b = false /\ comes_before b a = true).
Proof.
  intros a b. apply (@comes_before_trichotomy IntKey a b); reflexivity.
Defined.

Lemma touching_tests_symmetric_witness :
  let a := iv 3 true 5 false in
  let b := iv 5 true 8 true in
  (exists o j, overlaps a b = Ok o /\ adjacent_to a b = Ok j /\ o && j = false)
  /\ overlaps a b = overlaps b a
  /\ adjacent_to a b = adjacent_to b a.
Proof.
  intros a b. apply (@touching_tests_symmetric IntKey a b); reflexivity.
Defined.

Lemma overlaps_unbounded_below_recursion_witness :
  let a := @mkInterval IntKey Smallest false (@Value IntKey 5) false in
  let b := @mkInterval IntKey Smallest false (@Value IntKey 6) false in
  overlaps a b = Raise RecursionError.
Proof.
  intros a b.
  apply (@overlaps_unbounded_below_recursion IntKey a b
           eq_refl eq_refl eq_refl recursion_limit).
Defined.

Lemma join_commutative_witness :
  join (iv 5 false 7 false) (iv 6 true 8 true)
  = join (iv 6 true 8 true) (iv 5 false 7 false).
Proof. apply (@join_commutative IntKey); reflexivity. Defined.

Lemma intersection_commutative_witness :
  interval_and (iv 2 false 5 false) (iv 4 false 8 false)
  = interval_and (iv 4 false 8 false) (iv 2 false 5 false).
Proof. apply (@intersection_commutative IntKey); reflexivity. Defined.

Lemma intersection_of_disjoint_raises_witness :
  let a := iv 1 true 2 true in
  let b := iv 4 true 5 true in
  overlaps a b = Ok false
  /\ interval_and a b = Raise abstract_class_error.
Proof.
  intros a b. split; [vm_compute; reflexivity|].
  apply (@intersection_of_disjoint_raises IntKey a b);
    [reflexivity | reflexivity | vm_compute; reflexivity].
Defined.

Lemma comparisons_read_only_witness :
  let s : list (list IntInterval) :=
    [[iv 1 true 3 true]; [iv 0 true 5 true]] in
  exists c, __lt__ 0%nat 1%nat s = (Ok c, s).
Proof.
  intros s.
  apply (proj2 (proj2 (@comparisons_read_only IntKey 0%nat 1%nat
                          (AnInterval (iv 1 true 3 true)) s))).
  simpl. auto 10.
Defined.

Lemma set_equals_itself_witness :
  let s : list (list IntInterval) :=
    [[iv 1 false 3 true; iv 7 true 9 false]] in
  __eq__ 0%nat 0%nat s = (Ok true, s) /\ __ne__ 0%nat 0%nat s = (Ok false, s).
Proof.
  intros s. apply (@set_equals_itself IntKey 0%nat s).
  intros i [<-|[<-|[]]]; reflexivity.
Defined.

Lemma unbounded_member_breaks_subset_witness :
  let i := @mkInterval IntKey Smallest false (@Value IntKey 5) false in
  let s : list (list IntInterval) := [[i]; [i]] in
  __le__ 0%nat 1%nat s = (Ok false, s) /\ __eq__ 0%nat 0%nat s = (Ok false, s).
Proof.
  intros i s. apply (@unbounded_member_breaks_subset IntKey 0%nat 1%nat s i).
  - left. reflexivity.
  - left. reflexivity.
Defined.

Lemma add_raises_unchanged_witness :
  let s : list (list IntInterval) := [[iv 1 true 3 true]] in
  (add 0%nat (AValue (@Value IntKey 4)) s).1 = Raise abstract_class_error
  /\ (add 0%nat (AValue (@Value IntKey 4)) s).2 = s.
Proof.
  intros s. split; [reflexivity|].
  apply (@add_raises_unchanged IntKey 0%nat (AValue (@Value IntKey 4)) s
           abstract_class_error).
  reflexivity.
Defined.

Lemma added_interval_is_member_witness :
  let s : list (list IntInterval) := [[iv 3 true 5 false; iv 6 true 8 true]] in
  let r := iv 10 true 12 true in
  (add 0%nat (AnInterval r) s).1 = Ok tt
  /\ (__contains__ 0%nat (AnInterval r) (add 0%nat (AnInterval r) s).2).1
     = Ok true.
Proof.
  intros s r. split; [vm_compute; reflexivity|].
  apply (@added_interval_is_member IntKey 0%nat r s).
  - exact IntKey_transitive.
  - reflexivity.
  - repeat constructor.
  - vm_compute. reflexivity.
Defined.

Lemma add_grows_by_at_most_one_witness :
  let s : list (list IntInterval) := [[iv 3 true 5 false; iv 6 true 8 true]] in
  let obj := AnInterval (iv 10 true 12 true) in
  (1 <= length (default [] ((add 0%nat obj s).2 !! 0%nat))
   <= S (length (default [] (s !! 0%nat))))%nat.
Proof.
  intros s obj. apply (@add_grows_by_at_most_one IntKey 0%nat obj s).
  - repeat constructor.
  - vm_compute. reflexivity.
Defined.

Lemma pop_takes_last_witness :
  let s : list (list IntInterval) := [[iv 6 true 9 false; iv 34 true 34 true]] in
  pop 0%nat s
  = (Ok (AValue (@Value IntKey 34)), <[0%nat := [iv 6 true 9 false]]> s).
Proof.
  intros s.
  apply (proj2 (@pop_takes_last IntKey 0%nat s)
               [iv 6 true 9 false] (iv 34 true 34 true)).
  reflexivity.
Defined.

Lemma assigning_operations_change_only_self_witness :
  let s : list (list IntInterval) :=
    [[iv 1 true 3 true]; [iv 5 true 6 true; iv 7 true 9 true]] in
  (update 0%nat (ASet 1%nat) s).1 = Ok tt
  /\ (update 0%nat (ASet 1%nat) s).2 !! 1%nat = s !! 1%nat.
Proof.
  intros s. split; [vm_compute; reflexivity|].
  apply (proj1 (@assigning_operations_change_only_self IntKey 0%nat 1%nat s
                  ltac:(repeat constructor) ltac:(discriminate))).
  simpl. auto.
Defined.

Lemma copy_of_canonical_set_witness :
  let s : list (list IntInterval) := [[iv 1 true 2 false; iv 4 false 5 true]] in
  IntervalSet_of 0%nat s
  = (Ok (length s), s ++ [default [] (s !! 0%nat)]).
Proof.
  intros s. apply (@copy_of_canonical_set IntKey 0%nat s).
  - vm_compute. reflexivity.
  - intros i [<-|[<-|[]]]; reflexivity.
Defined.

Lemma difference_with_itself_empty_witness :
  let s : list (list IntInterval) := [[iv 1 true 2 false; iv 4 false 5 true]] in
  exists c s', __sub__ 0%nat 0%nat s = (Ok c, s') /\ s' !! c = Some [].
Proof.
  intros s. apply (@difference_with_itself_empty IntKey 0%nat s).
  - repeat constructor.
  - vm_compute. reflexivity.
  - intros i [<-|[<-|[]]]; reflexivity.
Defined.
